(** * HROneBackendTask: the product and order endpoints of [main.py]

    A shallow embedding of the two read endpoints ([list_products],
    [get_user_orders]) and the two write endpoints ([create_product],
    [create_order]) together with the part of the document store they
    rely on: BSON-like documents, [find] with an equality or a regular
    expression criterion, and the aggregation stages [$match], [$unwind],
    [$lookup], [$group], [$skip] and [$limit].

    Conventions.
    - Python [int]s are [Z].  The driver encodes an int in at most eight
      bytes and raises [OverflowError] for any other, before the store is
      reached ([bson_int], [encodable]).
    - A Python [dict] and a stored document are association lists in
      insertion order.
    - Prices are doubles.  The arithmetic of the store engine is a
      parameter ([Arith]); [binary64] instantiates it with IEEE 754
      double precision for the concrete scenarios.
    - What the source does not fix about the engine is a parameter
      ([Engine]): the case folding behind option [i] of [$regex], and the
      order in which [$group] emits its groups. *)

From Stdlib Require Import ZArith NArith List String Ascii Bool Lia.
From Stdlib Require Import Permutation.
From Stdlib Require Import Floats.SpecFloat.
Import ListNotations.

Local Open Scope string_scope.
Local Open Scope list_scope.
Local Open Scope Z_scope.

Set Implicit Arguments.
Set Warnings "-register-all".

(* ------------------------------------------------------------------ *)
(** ** Errors *)

Inductive error :=
| KeyError (k : string)        (* dict access on a missing key *)
| TypeError                    (* subscripting or iterating the wrong type *)
| OperationFailure             (* the engine rejects the pipeline at run time *)
| RequestValidationError       (* a query parameter violates its [ge=] bound *)
| OverflowError                (* the driver cannot encode an int beyond eight bytes *)
| DuplicateKeyError            (* the unique index on [_id] rejects an insert *)
| ValueError                   (* a negative [cursor.skip]; a float JSON cannot hold *)
| Unmodelled.                  (* a [str] or a pattern the model has no reading for *)

Inductive result (A : Type) :=
| Ok (a : A)
| Raise (e : error).

Arguments Ok {A} a.
Arguments Raise {A} e.

Definition bind {A B} (r : result A) (k : A -> result B) : result B :=
  match r with
  | Ok a => k a
  | Raise e => Raise e
  end.

Notation "x <- r ;; k" := (bind r (fun x => k))
  (at level 61, r at next level, right associativity).
Notation "' p <- r ;; k" := (bind r (fun x => let p := x in k))
  (at level 61, p pattern, r at next level, right associativity).

Fixpoint mapM {A B} (f : A -> result B) (l : list A) : result (list B) :=
  match l with
  | [] => Ok []
  | a :: l' => b <- f a ;; bs <- mapM f l' ;; Ok (b :: bs)
  end.

(* ------------------------------------------------------------------ *)
(** ** Numbers of the store engine *)

Class Arith := {
  num : Type;                         (* BSON double *)
  of_int : Z -> num;                  (* int to double *)
  mul : num -> num -> num;            (* [$multiply] on doubles *)
  dsum : list num -> num;             (* the [$sum] accumulator on doubles *)
  num_eqb : num -> num -> bool;       (* comparison of doubles *)
  is_finite : num -> bool             (* neither an infinity nor a NaN *)
}.

Definition b64 (z : Z) : spec_float := binary_normalize 53 1024 z 0 false.

Definition binary64 : Arith := {|
  num := spec_float;
  of_int := b64;
  mul := SFmul 53 1024;
  dsum := fun xs => fold_left (SFadd 53 1024) xs (S754_zero false);
  num_eqb := SFeqb;
  is_finite := fun x => match x with
                        | S754_zero _ | S754_finite _ _ _ => true
                        | S754_infinity _ | S754_nan => false
                        end
|}.

(* ------------------------------------------------------------------ *)
(** ** Documents *)

(** [str(ObjectId)] is the 24-digit lower-case hexadecimal rendering of the
    twelve bytes. *)
Inductive ObjectId := Oid (n : N).

Definition hex_digit (d : N) : ascii :=
  nth (N.to_nat d) (list_ascii_of_string "0123456789abcdef") "0"%char.

Fixpoint hex_digits (width : nat) (n : N) (acc : string) : string :=
  match width with
  | O => acc
  | S w => hex_digits w (N.div n 16) (String (hex_digit (N.modulo n 16)) acc)
  end.

Definition oid_str (o : ObjectId) : string :=
  let 'Oid n := o in hex_digits 24 n "".

Section Documents.
Context {A : Arith}.

Inductive value :=
| VNull
| VInt (n : Z)
| VDouble (x : num)
| VStr (s : string)
| VOid (o : ObjectId)
| VArr (l : list value)
| VDoc (d : list (string * value)).

Definition doc := list (string * value).

(** *** Python dict operations *)

Fixpoint dict_get (k : string) (d : doc) : option value :=
  match d with
  | [] => None
  | (k', v) :: d' => if String.eqb k k' then Some v else dict_get k d'
  end.

(** [d[k] = v]: in place when the key exists, appended otherwise. *)
Fixpoint dict_set (k : string) (v : value) (d : doc) : doc :=
  match d with
  | [] => [(k, v)]
  | (k', v') :: d' =>
      if String.eqb k k' then (k', v) :: d' else (k', v') :: dict_set k v d'
  end.

Fixpoint dict_remove (k : string) (d : doc) : doc :=
  match d with
  | [] => []
  | (k', v') :: d' =>
      if String.eqb k k' then d' else (k', v') :: dict_remove k d'
  end.

(** [d[k]] *)
Definition dict_item (k : string) (d : doc) : result value :=
  match dict_get k d with
  | Some v => Ok v
  | None => Raise (KeyError k)
  end.

(** [d.pop(k)] *)
Definition dict_pop (k : string) (d : doc) : result (value * doc) :=
  match dict_get k d with
  | Some v => Ok (v, dict_remove k d)
  | None => Raise (KeyError k)
  end.

(** [del d[k]] *)
Definition dict_del (k : string) (d : doc) : result doc :=
  match dict_get k d with
  | Some _ => Ok (dict_remove k d)
  | None => Raise (KeyError k)
  end.

(** [str(v)] for the two identifier types of the data model. *)
Definition py_str (v : value) : result string :=
  match v with
  | VStr s => Ok s
  | VOid o => Ok (oid_str o)
  | _ => Raise Unmodelled
  end.

(** *** Comparison of stored values *)

Fixpoint value_eqb (v w : value) {struct v} : bool :=
  let fix arr_eqb (l m : list value) {struct l} : bool :=
    match l, m with
    | [], [] => true
    | x :: l', y :: m' => value_eqb x y && arr_eqb l' m'
    | _, _ => false
    end in
  let fix doc_eqb (d e : list (string * value)) {struct d} : bool :=
    match d, e with
    | [], [] => true
    | (k, x) :: d', (k', y) :: e' =>
        String.eqb k k' && value_eqb x y && doc_eqb d' e'
    | _, _ => false
    end in
  match v, w with
  | VNull, VNull => true
  | VInt a, VInt b => Z.eqb a b
  | VInt a, VDouble y => num_eqb (of_int a) y
  | VDouble x, VInt b => num_eqb x (of_int b)
  | VDouble x, VDouble y => num_eqb x y
  | VStr s, VStr t => String.eqb s t
  | VOid (Oid a), VOid (Oid b) => N.eqb a b
  | VArr l, VArr m => arr_eqb l m
  | VDoc d, VDoc e => doc_eqb d e
  | _, _ => false
  end.

(** *** Field paths *)

(** The value of a dotted field path in an aggregation expression.  Paths
    descend through sub-documents. *)
Fixpoint get_path (p : list string) (v : value) : option value :=
  match p with
  | [] => Some v
  | k :: p' =>
      match v with
      | VDoc d =>
          match dict_get k d with
          | Some v' => get_path p' v'
          | None => None
          end
      | _ => None
      end
  end.

(** Writing a dotted field path, creating sub-documents on the way. *)
Fixpoint set_path (p : list string) (v : value) (d : doc) : doc :=
  match p with
  | [] => d
  | [k] => dict_set k v d
  | k :: p' =>
      let sub := match dict_get k d with
                 | Some (VDoc s) => s
                 | _ => []
                 end in
      dict_set k (VDoc (set_path p' v sub)) d
  end.

(** The candidates a query criterion on a dotted path is tested against:
    the path descends through sub-documents and through the documents of
    an array. *)
Fixpoint path_values (p : list string) (v : value) : list value :=
  match p with
  | [] => [v]
  | k :: p' =>
      let step (d : doc) :=
        match dict_get k d with
        | Some v' => path_values p' v'
        | None => []
        end in
      match v with
      | VDoc d => step d
      | VArr l =>
          flat_map (fun e => match e with VDoc d => step d | _ => [] end) l
      | _ => []
      end
  end.

(** *** What the driver can encode *)

Definition int64_min : Z := - 2 ^ 63.
Definition int64_max : Z := 2 ^ 63 - 1.

Definition fits_int64 (n : Z) : bool :=
  (int64_min <=? n) && (n <=? int64_max).

(** Encoding a Python int for the wire. *)
Definition bson_int (n : Z) : result unit :=
  if fits_int64 n then Ok tt else Raise OverflowError.

(** A value all of whose ints fit. *)
Fixpoint encodable (v : value) : bool :=
  let fix all_arr (l : list value) : bool :=
    match l with
    | [] => true
    | x :: l' => encodable x && all_arr l'
    end in
  let fix all_doc (d : list (string * value)) : bool :=
    match d with
    | [] => true
    | (_, x) :: d' => encodable x && all_doc d'
    end in
  match v with
  | VInt n => fits_int64 n
  | VArr l => all_arr l
  | VDoc d => all_doc d
  | _ => true
  end.

End Documents.

(* ------------------------------------------------------------------ *)
(** ** Regular expressions: [re.escape] and the engine's [$regex] *)

Definition tab : ascii := ascii_of_nat 9.
Definition newline : ascii := ascii_of_nat 10.
Definition vtab : ascii := ascii_of_nat 11.
Definition formfeed : ascii := ascii_of_nat 12.
Definition creturn : ascii := ascii_of_nat 13.

Definition mem_ascii (c : ascii) (l : list ascii) : bool :=
  existsb (Ascii.eqb c) l.

(** The characters [re.escape] puts a backslash in front of. *)
Definition special_chars : list ascii :=
  list_ascii_of_string "()[]{}?*+-|^$\.&~# "
    ++ [tab; newline; creturn; vtab; formfeed].

Fixpoint re_escape (s : string) : string :=
  match s with
  | EmptyString => EmptyString
  | String c s' =>
      if mem_ascii c special_chars
      then String "\" (String c (re_escape s'))
      else String c (re_escape s')
  end.

(** The characters with a meaning of their own in a pattern. *)
Definition meta_chars : list ascii := list_ascii_of_string "\^$.[|()?*+{".

Definition is_alnum (c : ascii) : bool :=
  let n := nat_of_ascii c in
  ((48 <=? n) && (n <=? 57) || (65 <=? n) && (n <=? 90)
   || (97 <=? n) && (n <=? 122))%nat.

(** The engine's reading of a pattern that is a sequence of literal
    characters: a backslash in front of a character that is neither a
    letter nor a digit stands for that character, and a character that is
    not a metacharacter stands for itself.  Any other pattern is outside
    this fragment ([None]). *)
Fixpoint literal_pattern (p : string) : option string :=
  match p with
  | EmptyString => Some EmptyString
  | String c p' =>
      if Ascii.eqb c "\" then
        match p' with
        | EmptyString => None
        | String e p'' =>
            if is_alnum e then None
            else option_map (String e) (literal_pattern p'')
        end
      else if mem_ascii c meta_chars then None
      else option_map (String c) (literal_pattern p')
  end.

(** Lower case of the letters A to Z; other bytes are left alone. *)
Definition lower_char (c : ascii) : ascii :=
  let n := nat_of_ascii c in
  if ((65 <=? n) && (n <=? 90))%nat then ascii_of_nat (n + 32) else c.

Fixpoint lowercase (s : string) : string :=
  match s with
  | EmptyString => EmptyString
  | String c s' => String (lower_char c) (lowercase s')
  end.

Fixpoint all_ascii (s : string) : bool :=
  match s with
  | EmptyString => true
  | String c s' => (nat_of_ascii c <? 128)%nat && all_ascii s'
  end.

(** Option [i] makes letters match in either case. *)
Definition caseless (options : string) : bool :=
  mem_ascii "i" (list_ascii_of_string options).

Fixpoint match_here (lits subject : string) : bool :=
  match lits, subject with
  | EmptyString, _ => true
  | String _ _, EmptyString => false
  | String a lits', String b subject' =>
      Ascii.eqb a b && match_here lits' subject'
  end.

(** A pattern without anchors matches anywhere in the subject. *)
Fixpoint match_anywhere (lits subject : string) : bool :=
  match_here lits subject ||
  match subject with
  | EmptyString => false
  | String _ subject' => match_anywhere lits subject'
  end.

(* ------------------------------------------------------------------ *)
(** ** What the source leaves to the engine *)

(** Strings are UTF-8.  Under option [i] the engine matches two characters
    when their case foldings are equal; [casefold] folds every character of
    a string, and on a string of ASCII characters it is the lower case of
    A to Z.  The folding of the other characters is the engine's table.

    [$group] emits one document per distinct key, in an order of the
    engine's choosing: [arrange] puts the keys, given in order of first
    appearance, into that order. *)
Class Engine (A : Arith) := {
  casefold : string -> string;
  casefold_ascii : forall s, all_ascii s = true -> casefold s = lowercase s;
  arrange : list value -> list value;
  arrange_perm : forall keys, Permutation (arrange keys) keys
}.

Section Regex.
Context {A : Arith} {Eng : Engine A}.

(** A search for the literals of the pattern: in the folded subject for
    the folded literals under option [i], as they are otherwise. *)
Definition regex_search (pattern options subject : string) : result bool :=
  match literal_pattern pattern with
  | Some lits =>
      Ok (if caseless options
          then match_anywhere (casefold lits) (casefold subject)
          else match_anywhere lits subject)
  | None => Raise Unmodelled
  end.

End Regex.

(* ------------------------------------------------------------------ *)
(** ** The document store *)

Section Store.
Context {A : Arith} {Eng : Engine A}.

Record database := {
  products_collection : list doc;
  orders_collection : list doc
}.

(** [db[name]]; a collection that was never written to is empty. *)
Definition collection (db : database) (name : string) : list doc :=
  if String.eqb name "products" then products_collection db
  else if String.eqb name "orders" then orders_collection db
  else [].

(** *** Queries *)

Inductive criterion :=
| Equals (v : value)                     (* {path: v} *)
| Regex (pattern options : string).      (* {path: {"$regex": .., "$options": ..}} *)

(** A query dict; the dotted path ["a.b"] is written [["a"; "b"]]. *)
Definition query := list (list string * criterion).

Definition equals_value (v c : value) : bool :=
  value_eqb c v ||
  match c with
  | VArr l => existsb (fun e => value_eqb e v) l
  | _ => false
  end.

Definition holds_equals (v : value) (cands : list value) : bool :=
  existsb (equals_value v) cands ||
  match v, cands with
  | VNull, [] => true
  | _, _ => false
  end.

Definition regex_value (pattern options : string) (c : value) : result bool :=
  match c with
  | VStr s => regex_search pattern options s
  | VArr l =>
      bs <- mapM (fun e => match e with
                           | VStr s => regex_search pattern options s
                           | _ => Ok false
                           end) l ;;
      Ok (existsb id bs)
  | _ => Ok false
  end.

Definition holds (c : criterion) (cands : list value) : result bool :=
  match c with
  | Equals v => Ok (holds_equals v cands)
  | Regex pattern options =>
      bs <- mapM (regex_value pattern options) cands ;;
      Ok (existsb id bs)
  end.

Fixpoint matches (q : query) (d : doc) : result bool :=
  match q with
  | [] => Ok true
  | (p, c) :: q' =>
      b <- holds c (path_values p (VDoc d)) ;;
      bs <- matches q' d ;;
      Ok (b && bs)
  end.

Fixpoint select (q : query) (coll : list doc) : result (list doc) :=
  match coll with
  | [] => Ok []
  | d :: coll' =>
      b <- matches q d ;;
      ds <- select q coll' ;;
      Ok (if b then d :: ds else ds)
  end.

Definition encodable_query (q : query) : bool :=
  forallb (fun pc => match snd pc with
                     | Equals v => encodable v
                     | Regex _ _ => true
                     end) q.

(** *** Cursors *)

(** [coll.find(q, {f: 0, ..})] only builds the cursor. *)
Record cursor := {
  cur_coll : list doc;
  cur_query : query;
  cur_excluded : list string;
  cur_skip : Z;
  cur_limit : Z
}.

Definition find (coll : list doc) (q : query) (excluded : list string)
  : cursor :=
  {| cur_coll := coll; cur_query := q; cur_excluded := excluded;
     cur_skip := 0; cur_limit := 0 |}.

(** [cursor.skip(n)] *)
Definition cursor_skip (n : Z) (c : cursor) : result cursor :=
  if n <? 0 then Raise ValueError
  else Ok {| cur_coll := cur_coll c; cur_query := cur_query c;
             cur_excluded := cur_excluded c;
             cur_skip := n; cur_limit := cur_limit c |}.

(** [cursor.limit(n)] *)
Definition cursor_limit (n : Z) (c : cursor) : cursor :=
  {| cur_coll := cur_coll c; cur_query := cur_query c;
     cur_excluded := cur_excluded c;
     cur_skip := cur_skip c; cur_limit := n |}.

Definition project_out (excluded : list string) (d : doc) : doc :=
  fold_left (fun d' f => dict_remove f d') excluded d.

(** [list(cursor)]: the driver encodes the command, then the engine
    returns the matching documents in insertion order, after the skip and
    up to the limit (the absolute value counts, 0 is no limit), without the
    excluded fields. *)
Definition cursor_list (c : cursor) : result (list doc) :=
  _ <- (if encodable_query (cur_query c) then Ok tt else Raise OverflowError) ;;
  _ <- bson_int (cur_skip c) ;;
  _ <- bson_int (Z.abs (cur_limit c)) ;;
  ds <- select (cur_query c) (cur_coll c) ;;
  let skipped := skipn (Z.to_nat (cur_skip c)) ds in
  let taken := if cur_limit c =? 0 then skipped
               else firstn (Z.to_nat (Z.abs (cur_limit c))) skipped in
  Ok (map (project_out (cur_excluded c)) taken).

End Store.

(* ------------------------------------------------------------------ *)
(** ** Aggregation stages *)

Section Aggregation.
Context {A : Arith} {Eng : Engine A}.

(** A stage of a pipeline: what the driver makes of encoding it, and what
    the engine does with the rows that reach it. *)
Record stage := {
  encoded : result unit;
  run : list doc -> result (list doc)
}.

(** [{"$match": q}] *)
Definition match_stage (q : query) : stage :=
  {| encoded := if encodable_query q then Ok tt else Raise OverflowError;
     run := select q |}.

(** [{"$unwind": "$path"}] on one row: one row per element of the array,
    none for a missing field, [null] or the empty array, and the row itself
    for any other value. *)
Definition unwind (p : list string) (row : doc) : list doc :=
  match get_path p (VDoc row) with
  | None => []
  | Some VNull => []
  | Some (VArr l) => map (fun e => set_path p e row) l
  | Some _ => [row]
  end.

Definition unwind_stage (p : list string) : stage :=
  {| encoded := Ok tt;
     run := fun rows => Ok (flat_map (unwind p) rows) |}.

(** [{"$lookup": {from, localField, foreignField, as}}] on one row: the
    documents of [from] whose foreign field equals the local one are stored
    as an array under [as]. *)
Definition lookup (from : list doc) (localField foreignField as_ : list string)
    (row : doc) : doc :=
  let local := match get_path localField (VDoc row) with
               | Some v => v
               | None => VNull
               end in
  let wanted := match local with
                | VArr l => l
                | v => [v]
                end in
  let joined :=
    filter (fun f => existsb (fun v =>
                        holds_equals v (path_values foreignField (VDoc f)))
                      wanted) from in
  set_path as_ (VArr (map VDoc joined)) row.

Definition lookup_stage (db : database) (from : string)
    (localField foreignField as_ : list string) : stage :=
  {| encoded := Ok tt;
     run := fun rows =>
       Ok (map (lookup (collection db from) localField foreignField as_)
               rows) |}.

(** *** Expressions and accumulators of [$group] *)

Inductive expr :=
| Field (p : list string)                (* "$a.b" *)
| Multiply (a b : expr).                 (* {"$multiply": [a, b]} *)

(** [None] is a missing value. *)
Fixpoint eval (e : expr) (row : doc) : result (option value) :=
  match e with
  | Field p => Ok (get_path p (VDoc row))
  | Multiply a b =>
      x <- eval a row ;;
      y <- eval b row ;;
      match x, y with
      | None, _ | _, None | Some VNull, _ | _, Some VNull => Ok (Some VNull)
      | Some (VInt m), Some (VInt n) => Ok (Some (VInt (m * n)))
      | Some (VInt m), Some (VDouble v) => Ok (Some (VDouble (mul (of_int m) v)))
      | Some (VDouble u), Some (VInt n) => Ok (Some (VDouble (mul u (of_int n))))
      | Some (VDouble u), Some (VDouble v) => Ok (Some (VDouble (mul u v)))
      | _, _ => Raise OperationFailure
      end
  end.

Inductive accumulator :=
| Push (e : expr)                        (* {"$push": e} *)
| Sum (e : expr).                        (* {"$sum": e} *)

Definition present (vs : list (option value)) : list value :=
  flat_map (fun o => match o with Some v => [v] | None => [] end) vs.

Definition ints (vs : list value) : list Z :=
  flat_map (fun v => match v with VInt n => [n] | _ => [] end) vs.

Definition doubles (vs : list value) : list num :=
  flat_map (fun v => match v with
                     | VInt n => [of_int n]
                     | VDouble x => [x]
                     | _ => []
                     end) vs.

Definition is_double (v : value) : bool :=
  match v with VDouble _ => true | _ => false end.

(** [$sum] adds the numbers and skips everything else; the sum is a double
    as soon as one of them is. *)
Definition sum_values (vs : list value) : value :=
  if existsb is_double vs then VDouble (dsum (doubles vs))
  else VInt (fold_left Z.add (ints vs) 0).

Definition accumulate (a : accumulator) (members : list doc) : result value :=
  match a with
  | Push e => vs <- mapM (eval e) members ;; Ok (VArr (present vs))
  | Sum e => vs <- mapM (eval e) members ;; Ok (sum_values (present vs))
  end.

(** The distinct values of a list in order of first appearance. *)
Fixpoint distinct (vs : list value) : list value :=
  match vs with
  | [] => []
  | v :: vs' => v :: filter (fun w => negb (value_eqb v w)) (distinct vs')
  end.

Definition group_key (key : expr) (row : doc) : result value :=
  k <- eval key row ;;
  Ok (match k with Some v => v | None => VNull end).

Definition members_of (k : value) (keyed : list (value * doc)) : list doc :=
  map snd (filter (fun kr => value_eqb k (fst kr)) keyed).

(** [{"$group": {"_id": key, name: accumulator, ..}}]: one document per
    distinct key among the rows, in the engine's order. *)
Definition group_docs (key : expr) (accs : list (string * accumulator))
    (rows : list doc) : result (list doc) :=
  keyed <- mapM (fun row => k <- group_key key row ;; Ok (k, row)) rows ;;
  mapM (fun k =>
          fields <- mapM (fun na => v <- accumulate (snd na) (members_of k keyed) ;;
                                    Ok (fst na, v)) accs ;;
          Ok (("_id", k) :: fields))
       (arrange (distinct (map fst keyed))).

Definition group_stage (key : expr) (accs : list (string * accumulator))
  : stage :=
  {| encoded := Ok tt; run := group_docs key accs |}.

(** [{"$skip": n}]; the engine rejects a negative count. *)
Definition skip_stage (n : Z) : stage :=
  {| encoded := bson_int n;
     run := fun rows =>
       if n <? 0 then Raise OperationFailure
       else Ok (skipn (Z.to_nat n) rows) |}.

(** [{"$limit": n}]; the engine rejects a count below one. *)
Definition limit_stage (n : Z) : stage :=
  {| encoded := bson_int n;
     run := fun rows =>
       if n <? 1 then Raise OperationFailure
       else Ok (firstn (Z.to_nat n) rows) |}.

(** The engine runs the stages in turn. *)
Definition run_stages (pipeline : list stage) (rows : list doc)
  : result (list doc) :=
  fold_left (fun acc st => bind acc (run st)) pipeline (Ok rows).

(** [coll.aggregate(pipeline)]: the driver encodes the whole pipeline
    before anything is sent to the store. *)
Definition aggregate (coll : list doc) (pipeline : list stage)
  : result (list doc) :=
  _ <- mapM encoded pipeline ;;
  run_stages pipeline coll.

End Aggregation.

(* ------------------------------------------------------------------ *)
(** ** The application: models and endpoints of [main.py] *)

Section Application.
Context {A : Arith} {Eng : Engine A}.

(** *** Pydantic models *)

Record Size := { size : string; quantity : Z }.

Record Product := { name : string; price : num; sizes : list Size }.

Record OrderItem := { productId : string; qty : Z }.

Record Order := { userId : string; items : list OrderItem }.

(** [model.dict()] *)
Definition Size_dict (s : Size) : doc :=
  [("size", VStr (size s)); ("quantity", VInt (quantity s))].

Definition Product_dict (p : Product) : doc :=
  [("name", VStr (name p)); ("price", VDouble (price p));
   ("sizes", VArr (map (fun s => VDoc (Size_dict s)) (sizes p)))].

Definition OrderItem_dict (i : OrderItem) : doc :=
  [("productId", VStr (productId i)); ("qty", VInt (qty i))].

Definition Order_dict (o : Order) : doc :=
  [("userId", VStr (userId o));
   ("items", VArr (map (fun i => VDoc (OrderItem_dict i)) (items o)))].

(** *** Writes *)

Definition has_id (i : value) (coll : list doc) : bool :=
  existsb (fun d => match dict_get "_id" d with
                    | Some v => value_eqb v i
                    | None => false
                    end) coll.

(** [coll.insert_one(document)]: the driver generates the identifier
    [inserted_id], puts it into the document and encodes the document; the
    store appends it unless the identifier is taken.  The result is the
    collection afterwards and the outcome of the call. *)
Definition insert_one (inserted_id : ObjectId) (document : doc)
    (coll : list doc) : list doc * result ObjectId :=
  let stored := ("_id", VOid inserted_id) :: document in
  if negb (encodable (VDoc stored)) then (coll, Raise OverflowError)
  else if has_id (VOid inserted_id) coll then (coll, Raise DuplicateKeyError)
  else (coll ++ [stored], Ok inserted_id).

(** POST /products: the store afterwards and the outcome of the handler. *)
Definition create_product (inserted_id : ObjectId) (product : Product)
    (db : database) : database * result doc :=
  let product_dict := Product_dict product in
  let result := insert_one inserted_id product_dict (products_collection db) in
  ({| products_collection := fst result;
      orders_collection := orders_collection db |},
   inserted <- snd result ;; Ok [("id", VStr (oid_str inserted))]).

(** POST /orders: the store afterwards and the outcome of the handler. *)
Definition create_order (inserted_id : ObjectId) (order : Order)
    (db : database) : database * result doc :=
  let order_dict := Order_dict order in
  let result := insert_one inserted_id order_dict (orders_collection db) in
  ({| products_collection := products_collection db;
      orders_collection := fst result |},
   inserted <- snd result ;; Ok [("id", VStr (oid_str inserted))]).

(** *** Reads *)

(** [Query(.., ge=1)] for [limit] and [Query(.., ge=0)] for [offset]. *)
Definition default_limit : Z := 10.
Definition default_offset : Z := 0.

Definition validate_window (limit offset : Z) : result unit :=
  if (limit <? 1) || (offset <? 0) then Raise RequestValidationError
  else Ok tt.

Definition len {T} (l : list T) : Z := Z.of_nat (List.length l).

Definition page_envelope (limit offset : Z) (returned : list doc) : value :=
  VDoc [("next", VInt (offset + limit));
        ("limit", VInt (len returned));
        ("previous", VInt (Z.max 0 (offset - limit)))].

Definition envelope (limit offset : Z) (returned : list doc) : doc :=
  [("data", VArr (map VDoc returned));
   ("page", page_envelope limit offset returned)].

(** [if name:] on an optional string. *)
Definition truthy (s : option string) : option string :=
  match s with
  | Some EmptyString => None
  | other => other
  end.

(** [doc['id'] = str(doc.pop('_id'))] *)
Definition rename_id (d : doc) : result doc :=
  '(i, d1) <- dict_pop "_id" d ;;
  s <- py_str i ;;
  Ok (dict_set "id" (VStr s) d1).

(** GET /products *)
Definition list_products (db : database) (name size : option string)
    (limit offset : Z) : result doc :=
  _ <- validate_window limit offset ;;
  let query : query := [] in
  let query := match truthy name with
               | Some n => query ++ [(["name"], Regex (re_escape n) "i")]
               | None => query
               end in
  let query := match truthy size with
               | Some sz => query ++ [(["sizes"; "size"], Equals (VStr sz))]
               | None => query
               end in
  skipped <- cursor_skip offset (find (products_collection db) query ["sizes"]) ;;
  products <- cursor_list (cursor_limit limit skipped) ;;
  products <- mapM rename_id products ;;
  Ok (envelope limit offset products).

(** The body of the inner loop of [get_user_orders]. *)
Definition shape_item (item : value) : result value :=
  match item with
  | VDoc it =>
      pd <- dict_item "productDetails" it ;;
      match pd with
      | VDoc details =>
          details <- rename_id details ;;
          details <- dict_del "sizes" details ;;
          Ok (VDoc (dict_set "productDetails" (VDoc details) it))
      | _ => Raise TypeError
      end
  | _ => Raise TypeError
  end.

(** The body of the outer loop of [get_user_orders]. *)
Definition shape_order (order : doc) : result doc :=
  order <- rename_id order ;;
  its <- dict_item "items" order ;;
  match its with
  | VArr l =>
      l' <- mapM shape_item l ;;
      Ok (dict_set "items" (VArr l') order)
  | _ => Raise TypeError
  end.

Definition orders_pipeline (db : database) (user_id : string)
    (limit offset : Z) : list stage :=
  [ match_stage [(["userId"], Equals (VStr user_id))];
    unwind_stage ["items"];
    lookup_stage db "products" ["items"; "productId"] ["_id"]
                 ["items"; "productDetails"];
    unwind_stage ["items"; "productDetails"];
    group_stage (Field ["_id"])
      [("items", Push (Field ["items"]));
       ("total", Sum (Multiply (Field ["items"; "qty"])
                               (Field ["items"; "productDetails"; "price"])))];
    skip_stage offset;
    limit_stage limit ].

(** GET /orders/{user_id} *)
Definition get_user_orders (db : database) (user_id : string)
    (limit offset : Z) : result doc :=
  _ <- validate_window limit offset ;;
  let pipeline := orders_pipeline db user_id limit offset in
  orders <- aggregate (orders_collection db) pipeline ;;
  orders <- mapM shape_order orders ;;
  Ok (envelope limit offset orders).

(** *** The response on its way out *)

(** FastAPI turns the dict a handler returns into JSON with
    [json.dumps(..., allow_nan=False)]: an infinity or a NaN anywhere in it
    raises ValueError, and so does an ObjectId, which has no JSON form. *)
Fixpoint json_compliant (v : value) : bool :=
  let fix all_arr (l : list value) : bool :=
    match l with
    | [] => true
    | x :: l' => json_compliant x && all_arr l'
    end in
  let fix all_doc (d : list (string * value)) : bool :=
    match d with
    | [] => true
    | (_, x) :: d' => json_compliant x && all_doc d'
    end in
  match v with
  | VDouble x => is_finite x
  | VOid _ => false
  | VArr l => all_arr l
  | VDoc d => all_doc d
  | _ => true
  end.

Definition render (content : doc) : result doc :=
  if json_compliant (VDoc content) then Ok content else Raise ValueError.

End Application.

(* ------------------------------------------------------------------ *)
(** ** Stores that follow the data model, and what the pipeline is to
       compute on them *)

Section DataModel.
Context {A : Arith} {Eng : Engine A}.

(** A stored identifier is an ObjectId (every identifier [insert_one]
    generates) or a string. *)
Inductive Id :=
| IdOid (o : ObjectId)
| IdStr (s : string).

Definition id_value (i : Id) : value :=
  match i with
  | IdOid o => VOid o
  | IdStr s => VStr s
  end.

Definition id_str (i : Id) : string :=
  match i with
  | IdOid o => oid_str o
  | IdStr s => s
  end.

Definition id_eqb (i j : Id) : bool :=
  match i, j with
  | IdOid (Oid a), IdOid (Oid b) => N.eqb a b
  | IdStr s, IdStr t => String.eqb s t
  | _, _ => false
  end.

Definition StoredProduct := (Id * Product)%type.
Definition StoredOrder := (Id * Order)%type.

Definition stored_product (p : StoredProduct) : doc :=
  ("_id", id_value (fst p)) :: Product_dict (snd p).

Definition stored_order (o : StoredOrder) : doc :=
  ("_id", id_value (fst o)) :: Order_dict (snd o).

Definition store (ps : list StoredProduct) (os : list StoredOrder) : database :=
  {| products_collection := map stored_product ps;
     orders_collection := map stored_order os |}.

(** The steps of the order enrichment, on the records of the data model. *)

(** What a row keeps of its order once the items are unwound. *)
Definition Header := (Id * string)%type.

Definition header (o : StoredOrder) : Header := (fst o, userId (snd o)).

Record Row := {
  row_order : Header;
  row_item : OrderItem;
  row_product : StoredProduct
}.

(** Step 1: the orders of the user. *)
Definition select_orders (u : string) (os : list StoredOrder) : list StoredOrder :=
  filter (fun o => String.eqb (userId (snd o)) u) os.

(** Step 2: one row per (order, item) pair. *)
Definition flatten (os : list StoredOrder) : list (Header * OrderItem) :=
  flat_map (fun o => map (pair (header o)) (items (snd o))) os.

(** Step 3: the products whose identifier equals the item's [productId]. *)
Definition referenced (ps : list StoredProduct) (i : OrderItem)
  : list StoredProduct :=
  filter (fun p => id_eqb (fst p) (IdStr (productId i))) ps.

Definition inner_join (ps : list StoredProduct)
    (rows : list (Header * OrderItem)) : list Row :=
  flat_map (fun r => map (Build_Row (fst r) (snd r)) (referenced ps (snd r)))
           rows.

(** Step 4: the surviving rows by order identifier. *)
Fixpoint distinct_ids (l : list Id) : list Id :=
  match l with
  | [] => []
  | i :: l' => i :: filter (fun j => negb (id_eqb i j)) (distinct_ids l')
  end.

Definition row_key (r : Row) : Id := fst (row_order r).

(** The engine's order of the keys, read back as identifiers. *)
Definition id_of_value (v : value) : list Id :=
  match v with
  | VOid o => [IdOid o]
  | VStr s => [IdStr s]
  | _ => []
  end.

Definition arrange_ids (ids : list Id) : list Id :=
  flat_map id_of_value (arrange (map id_value ids)).

Definition groups_of (ids : list Id) (rows : list Row) : list (Id * list Row) :=
  map (fun k => (k, filter (fun r => id_eqb k (row_key r)) rows)) ids.

(** The groups in order of first appearance, and in the engine's order. *)
Definition first_groups (rows : list Row) : list (Id * list Row) :=
  groups_of (distinct_ids (map row_key rows)) rows.

Definition group_rows (rows : list Row) : list (Id * list Row) :=
  groups_of (arrange_ids (distinct_ids (map row_key rows))) rows.

Definition joined_rows (ps : list StoredProduct) (os : list StoredOrder)
    (u : string) : list Row :=
  inner_join ps (flatten (select_orders u os)).

Definition user_groups (ps : list StoredProduct) (os : list StoredOrder)
    (u : string) : list (Id * list Row) :=
  group_rows (joined_rows ps os u).

(** Step 6: the page window. *)
Definition window {T} (limit offset : Z) (l : list T) : list T :=
  firstn (Z.to_nat limit) (skipn (Z.to_nat offset) l).

(** Step 7: the shape of a returned order. *)
Definition line_total (r : Row) : num :=
  mul (of_int (qty (row_item r))) (price (snd (row_product r))).

Definition details_out (p : StoredProduct) : doc :=
  [("name", VStr (name (snd p))); ("price", VDouble (price (snd p)));
   ("id", VStr (id_str (fst p)))].

Definition item_out (r : Row) : value :=
  VDoc [("productId", VStr (productId (row_item r)));
        ("qty", VInt (qty (row_item r)));
        ("productDetails", VDoc (details_out (row_product r)))].

Definition order_out (g : Id * list Row) : doc :=
  [("items", VArr (map item_out (snd g)));
   ("total", VDouble (dsum (map line_total (snd g))));
   ("id", VStr (id_str (fst g)))].

(** The rows between the stages, as documents. *)

Definition item_row (r : Header * OrderItem) : doc :=
  [("_id", id_value (fst (fst r))); ("userId", VStr (snd (fst r)));
   ("items", VDoc (OrderItem_dict (snd r)))].

Definition looked_up_row (ps : list StoredProduct) (r : Header * OrderItem)
  : doc :=
  [("_id", id_value (fst (fst r))); ("userId", VStr (snd (fst r)));
   ("items", VDoc [("productId", VStr (productId (snd r)));
                   ("qty", VInt (qty (snd r)));
                   ("productDetails",
                    VArr (map (fun p => VDoc (stored_product p))
                              (referenced ps (snd r))))])].

Definition joined_row (r : Row) : doc :=
  [("_id", id_value (row_key r)); ("userId", VStr (snd (row_order r)));
   ("items", VDoc [("productId", VStr (productId (row_item r)));
                   ("qty", VInt (qty (row_item r)));
                   ("productDetails", VDoc (stored_product (row_product r)))])].

Definition raw_item (r : Row) : value :=
  VDoc [("productId", VStr (productId (row_item r)));
        ("qty", VInt (qty (row_item r)));
        ("productDetails", VDoc (stored_product (row_product r)))].

Definition group_doc (g : Id * list Row) : doc :=
  [("_id", id_value (fst g));
   ("items", VArr (map raw_item (snd g)));
   ("total", sum_values (map (fun r => VDouble (line_total r)) (snd g)))].

Definition the_accumulators : list (string * accumulator) :=
  [("items", Push (Field ["items"]));
   ("total", Sum (Multiply (Field ["items"; "qty"])
                           (Field ["items"; "productDetails"; "price"])))].

(** The products [list_products] is to select: the text filter and the
    size filter, each applied when its parameter is given and not empty. *)
Definition name_selected (name_q : option string) (p : StoredProduct) : bool :=
  match truthy name_q with
  | Some n => match_anywhere (casefold n) (casefold (name (snd p)))
  | None => true
  end.

Definition size_selected (size_q : option string) (p : StoredProduct) : bool :=
  match truthy size_q with
  | Some sz => existsb (fun s => String.eqb (size s) sz) (sizes (snd p))
  | None => true
  end.

Definition listed (name_q size_q : option string) (p : StoredProduct) : bool :=
  name_selected name_q p && size_selected size_q p.

(** The query dict [list_products] builds. *)
Definition products_query (name_q size_q : option string) : query :=
  match truthy name_q with
  | Some n => [(["name"], Regex (re_escape n) "i")]
  | None => []
  end ++
  match truthy size_q with
  | Some sz => [(["sizes"; "size"], Equals (VStr sz))]
  | None => []
  end.

(** The shape of a listed product. *)
Definition product_out (p : StoredProduct) : doc := details_out p.

(** Reading a response. *)
Definition data_of (body : doc) : list value :=
  match dict_get "data" body with
  | Some (VArr l) => l
  | _ => []
  end.

Definition page_of (body : doc) (k : string) : option value :=
  match dict_get "page" body with
  | Some (VDoc pg) => dict_get k pg
  | _ => None
  end.

Definition field (k : string) (v : value) : option value :=
  match v with
  | VDoc d => dict_get k d
  | _ => None
  end.

Definition items_of (order : value) : list value :=
  match field "items" order with
  | Some (VArr l) => l
  | _ => []
  end.




(** A subject contains a text when, letter case aside, the text occurs
    somewhere inside it: the folded text is a part of the folded subject. *)
Definition contains_caseless (text subject : string) : Prop :=
  exists before after : string,
    casefold subject = (before ++ casefold text ++ after)%string.

End DataModel.

(** The stores the two POST endpoints can build from the empty one,
    whatever identifiers the driver generates and whether or not a call
    succeeds. *)
Inductive api_reachable {A : Arith} : database -> Prop :=
| reach_empty :
    api_reachable {| products_collection := []; orders_collection := [] |}
| reach_create_product db o p :
    api_reachable db ->
    api_reachable (fst (create_product o p db))
| reach_create_order db o ord :
    api_reachable db ->
    api_reachable (fst (create_order o ord db)).

(* ------------------------------------------------------------------ *)
(** ** A small store in double precision *)

Module Scenario.

#[local] Existing Instance binary64.

(** Two engines in double precision that fold the letters A to Z only:
    one emits the groups in order of first appearance, the other in the
    reverse order. *)
Definition plain_engine : Engine binary64 :=
  {| casefold := lowercase;
     casefold_ascii := fun _ _ => eq_refl;
     arrange := fun keys => keys;
     arrange_perm := fun keys => Permutation_refl keys |}.

Definition reversing_engine : Engine binary64 :=
  {| casefold := lowercase;
     casefold_ascii := fun _ _ => eq_refl;
     arrange := fun keys => rev keys;
     arrange_perm := fun keys => Permutation_sym (Permutation_rev keys) |}.

(** An engine that also folds the accented capitals of Latin-1, which
    UTF-8 writes as the byte 195 followed by a byte from 128 to 158 other
    than 151 (the multiplication sign): the small letter is 32 further. *)
Definition accented_capital (c d : ascii) : bool :=
  ((nat_of_ascii c =? 195) && (128 <=? nat_of_ascii d)
   && (nat_of_ascii d <=? 158) && negb (nat_of_ascii d =? 151))%nat.

Fixpoint fold_latin (s : string) : string :=
  match s with
  | EmptyString => EmptyString
  | String c rest =>
      match rest with
      | String d rest' =>
          if accented_capital c d
          then String c (String (ascii_of_nat (nat_of_ascii d + 32))
                                (fold_latin rest'))
          else String (lower_char c) (fold_latin rest)
      | EmptyString => String (lower_char c) EmptyString
      end
  end.

Lemma fold_latin_ascii s : all_ascii s = true -> fold_latin s = lowercase s.
Proof.
  induction s as [|c rest IH]; [reflexivity|].
  cbn [all_ascii]. intros H. apply andb_prop in H. destruct H as [Hc Hrest].
  specialize (IH Hrest). destruct rest as [|d rest']; [reflexivity|].
  cbn [fold_latin lowercase]. unfold accented_capital.
  destruct (Nat.eqb_spec (nat_of_ascii c) 195) as [E|_].
  - rewrite E in Hc. discriminate.
  - cbn [andb]. f_equal. exact IH.
Qed.

Definition latin_engine : Engine binary64 :=
  {| casefold := fold_latin;
     casefold_ascii := fold_latin_ascii;
     arrange := fun keys => keys;
     arrange_perm := fun keys => Permutation_refl keys |}.

(** A product with an accented name. *)
Definition creme : StoredProduct :=
  (IdStr "p3", {| name := "Crème"; price := b64 4; sizes := [] |}).

Definition shirt : StoredProduct :=
  (IdStr "p1",
   {| name := "Red Shirt"; price := b64 10;
      sizes := [ {| size := "M"; quantity := 3 |} ] |}).

Definition pants : StoredProduct :=
  (IdOid (Oid 255), {| name := "Pants"; price := b64 7; sizes := [] |}).

Definition two_shirts : OrderItem := {| productId := "p1"; qty := 2 |}.
Definition lost_item : OrderItem := {| productId := "p9"; qty := 1 |}.

Definition order1 : StoredOrder :=
  (IdOid (Oid 1), {| userId := "u1"; items := [two_shirts] |}).

Definition order2 : StoredOrder :=
  (IdOid (Oid 2), {| userId := "u2"; items := [lost_item] |}).

Definition order3 : StoredOrder :=
  (IdOid (Oid 3), {| userId := "u2"; items := [] |}).

Definition mixed_order : StoredOrder :=
  (IdOid (Oid 4), {| userId := "u1"; items := [two_shirts; lost_item] |}).

Definition empty_db : database :=
  {| products_collection := []; orders_collection := [] |}.

(** POST /products, then POST /orders naming the identifier just returned. *)
Definition posted_product : Product := snd shirt.

Definition posted_order : Order :=
  {| userId := "u1";
     items := [ {| productId := oid_str (Oid 1); qty := 2 |} ] |}.

Definition posted_db : database :=
  fst (create_order (Oid 2) posted_order
         (fst (create_product (Oid 1) posted_product empty_db))).

End Scenario.

(* ------------------------------------------------------------------ *)
(** ** The identifier helper, and the rows of one order *)

Section Helpers.
Context {A : Arith}.

(** [str_object_id(obj)] *)
Definition str_object_id (obj : value) : result string :=
  match obj with
  | VOid o => Ok (oid_str o)
  | _ => Raise TypeError
  end.

(** The joined rows of one order, and the group it makes when it has any. *)
Definition rows_of (ps : list StoredProduct) (o : StoredOrder) : list Row :=
  inner_join ps (map (pair (header o)) (items (snd o))).

Definition order_group (ps : list StoredProduct) (o : StoredOrder)
  : list (Id * list Row) :=
  match rows_of ps o with
  | [] => []
  | rs => [(fst o, rs)]
  end.

(** An ObjectId is twelve bytes. *)
Definition oid_in_range (o : ObjectId) : Prop :=
  let 'Oid n := o in (n < 2 ^ 96)%N.

End Helpers.

Module MoreScenario.

#[local] Existing Instance binary64.
Import Scenario.

(** An item as the pipeline hands it to the inner loop, and as the loop
    leaves it. *)
Definition joined_item : doc :=
  [("productId", VStr "p1"); ("qty", VInt 2);
   ("productDetails", VDoc (stored_product shirt))].

Definition shaped_item : value :=
  VDoc [("productId", VStr "p1"); ("qty", VInt 2);
        ("productDetails", VDoc (product_out shirt))].

(** A product document that was stored without a [sizes] field. *)
Definition bare_details : doc :=
  [("_id", VStr "p7"); ("name", VStr "Cap"); ("price", VDouble (b64 5))].

Definition bare_item : doc :=
  [("productId", VStr "p7"); ("qty", VInt 1);
   ("productDetails", VDoc bare_details)].

Definition new_order : Order := {| userId := "u1"; items := [two_shirts] |}.

(** A product whose price is an infinity, as the body
    [{"name": "Gold", "price": 1e999, "sizes": []}] makes it. *)
Definition gold : StoredProduct :=
  (IdOid (Oid 7),
   {| name := "Gold"; price := S754_infinity false; sizes := [] |}).

(** An order with a quantity the driver cannot encode. *)
Definition huge_order : Order :=
  {| userId := "u1"; items := [ {| productId := "p1"; qty := 2 ^ 63 |} ] |}.

End MoreScenario.


(* ------------------------------------------------------------------ *)
(** ** The pipeline computes the steps of the data model *)

Section Refinement.
Context {A : Arith} {Eng : Engine A}.

Lemma bson_int_ok n : 0 <= n <= int64_max -> bson_int n = Ok tt.
Proof.
  unfold bson_int, fits_int64, int64_min, int64_max. intros H.
  destruct (Z.leb_spec (- 2 ^ 63) n), (Z.leb_spec n (2 ^ 63 - 1));
    try reflexivity; lia.
Qed.

Lemma bson_int_overflow n : int64_max < n -> bson_int n = Raise OverflowError.
Proof.
  unfold bson_int, fits_int64, int64_min, int64_max. intros H.
  destruct (Z.leb_spec (- 2 ^ 63) n), (Z.leb_spec n (2 ^ 63 - 1));
    try reflexivity; lia.
Qed.

Lemma mapM_map_ok {S T U} (f : T -> result U) (h : S -> T) (g : S -> U)
    (l : list S) :
  (forall x, In x l -> f (h x) = Ok (g x)) -> mapM f (map h l) = Ok (map g l).
Proof.
  induction l as [|x l IH]; intros Hf; simpl.
  - reflexivity.
  - rewrite (Hf x (or_introl eq_refl)).
    rewrite IH by (intros y Hy; apply Hf; right; exact Hy).
    reflexivity.
Qed.

Lemma In_window {T} limit offset (l : list T) x :
  In x (window limit offset l) -> In x l.
Proof.
  unfold window. intros H.
  rewrite <- (firstn_skipn (Z.to_nat offset) l). apply in_or_app. right.
  rewrite <- (firstn_skipn (Z.to_nat limit) (skipn (Z.to_nat offset) l)).
  apply in_or_app. left. exact H.
Qed.

Lemma filter_map_swap {T U} (f : U -> bool) (g : T -> U) (l : list T) :
  filter f (map g l) = map g (filter (fun x => f (g x)) l).
Proof.
  induction l as [|x l IH]; simpl.
  - reflexivity.
  - rewrite IH. destruct (f (g x)); reflexivity.
Qed.

Lemma holds_equals_str s t : holds_equals (VStr s) [VStr t] = String.eqb t s.
Proof. unfold holds_equals, equals_value. simpl. now rewrite !orb_false_r. Qed.

Lemma holds_equals_id s i :
  holds_equals (VStr s) [id_value i] = id_eqb i (IdStr s).
Proof.
  unfold holds_equals, equals_value. destruct i as [[n]|t]; simpl.
  - reflexivity.
  - now rewrite !orb_false_r.
Qed.

Lemma select_user u os :
  select [(["userId"], Equals (VStr u))] (map stored_order os)
  = Ok (map stored_order (select_orders u os)).
Proof.
  induction os as [|o os IH]; simpl.
  - reflexivity.
  - rewrite IH. simpl. rewrite holds_equals_str, andb_true_r.
    destruct (String.eqb (userId (snd o)) u); reflexivity.
Qed.


Lemma unwind_items o :
  unwind ["items"] (stored_order o)
  = map item_row (map (pair (header o)) (items (snd o))).
Proof.
  unfold unwind. simpl. rewrite !map_map. reflexivity.
Qed.

Lemma unwind_items_all os :
  flat_map (unwind ["items"]) (map stored_order os) = map item_row (flatten os).
Proof.
  unfold flatten. induction os as [|o os IH]; simpl.
  - reflexivity.
  - rewrite IH, unwind_items, map_app. reflexivity.
Qed.


Lemma joined_products s ps :
  filter (fun f => existsb (fun v => holds_equals v (path_values ["_id"] (VDoc f)))
                     [VStr s])
         (map stored_product ps)
  = map stored_product (filter (fun p => id_eqb (fst p) (IdStr s)) ps).
Proof.
  rewrite filter_map_swap. f_equal. apply filter_ext. intros p.
  cbn [existsb stored_product]. rewrite orb_false_r.
  change (path_values ["_id"] _) with [id_value (fst p)].
  apply holds_equals_id.
Qed.

Lemma lookup_item_row ps r :
  lookup (map stored_product ps) ["items"; "productId"] ["_id"]
         ["items"; "productDetails"] (item_row r)
  = looked_up_row ps r.
Proof.
  unfold lookup, looked_up_row, referenced. simpl get_path. cbv iota.
  rewrite joined_products, map_map. reflexivity.
Qed.


Lemma unwind_details ps r :
  unwind ["items"; "productDetails"] (looked_up_row ps r)
  = map joined_row (map (Build_Row (fst r) (snd r)) (referenced ps (snd r))).
Proof.
  unfold unwind. simpl. rewrite !map_map. reflexivity.
Qed.

Lemma unwind_details_all ps rows :
  flat_map (unwind ["items"; "productDetails"]) (map (looked_up_row ps) rows)
  = map joined_row (inner_join ps rows).
Proof.
  unfold inner_join. induction rows as [|r rows IH]; simpl.
  - reflexivity.
  - rewrite IH, unwind_details, map_app. reflexivity.
Qed.


Lemma value_eqb_id i j : value_eqb (id_value i) (id_value j) = id_eqb i j.
Proof. destruct i as [[a]|s], j as [[b]|t]; reflexivity. Qed.

Lemma id_eqb_eq i j : id_eqb i j = true <-> i = j.
Proof.
  destruct i as [[a]|s], j as [[b]|t]; simpl; split; intros H;
    try discriminate; try congruence.
  - apply N.eqb_eq in H. congruence.
  - apply N.eqb_eq. congruence.
  - apply String.eqb_eq in H. congruence.
  - apply String.eqb_eq. congruence.
Qed.

Lemma id_eqb_refl i : id_eqb i i = true.
Proof. now apply id_eqb_eq. Qed.

Lemma distinct_id_values l :
  distinct (map id_value l) = map id_value (distinct_ids l).
Proof.
  induction l as [|i l IH]; simpl.
  - reflexivity.
  - rewrite IH, filter_map_swap. do 2 f_equal. apply filter_ext.
    intros j. now rewrite value_eqb_id.
Qed.

Lemma distinct_ids_incl l i : In i (distinct_ids l) -> In i l.
Proof.
  induction l as [|j l IH]; simpl.
  - auto.
  - intros [H|H]; [now left|]. apply filter_In in H. right. now apply IH.
Qed.



Lemma present_some {T} (f : T -> value) (l : list T) :
  present (map (fun x => Some (f x)) l) = map f l.
Proof. induction l as [|x l IH]; simpl; [|rewrite IH]; reflexivity. Qed.


Lemma accumulate_rows k rs :
  mapM (fun na => v <- accumulate (snd na) (map joined_row rs) ;; Ok (fst na, v))
       the_accumulators
  = Ok (tl (group_doc (k, rs))).
Proof.
  unfold the_accumulators, accumulate. cbn [mapM fst snd].
  rewrite (mapM_map_ok _ joined_row (fun row => Some (raw_item row)))
    by (intros r _; reflexivity).
  rewrite (mapM_map_ok _ joined_row (fun row => Some (VDouble (line_total row))))
    by (intros r _; reflexivity).
  cbn [bind]. rewrite !present_some. reflexivity.
Qed.

Lemma members_rows i rows :
  members_of (id_value i) (map (fun r => (id_value (row_key r), joined_row r)) rows)
  = map joined_row (filter (fun r => id_eqb i (row_key r)) rows).
Proof.
  unfold members_of. rewrite filter_map_swap, !map_map. cbn [fst snd].
  f_equal. apply filter_ext. intros r. apply value_eqb_id.
Qed.

Lemma id_of_value_id i : id_of_value (id_value i) = [i].
Proof. destruct i; reflexivity. Qed.

Lemma flat_map_id_values (l : list value) :
  (forall v, In v l -> exists i, v = id_value i) ->
  map id_value (flat_map id_of_value l) = l.
Proof.
  induction l as [|v l IH]; intros H.
  - reflexivity.
  - destruct (H v (or_introl eq_refl)) as [i ->]. cbn [flat_map].
    rewrite id_of_value_id. cbn [app map]. f_equal.
    apply IH. intros w Hw. apply H. now right.
Qed.

Lemma arrange_ids_values ids :
  map id_value (arrange_ids ids) = arrange (map id_value ids).
Proof.
  unfold arrange_ids. apply flat_map_id_values. intros v Hv.
  apply (Permutation_in _ (arrange_perm (map id_value ids))) in Hv.
  apply in_map_iff in Hv. destruct Hv as (i & <- & _). now exists i.
Qed.

Lemma id_value_inj i j : id_value i = id_value j -> i = j.
Proof. destruct i, j; simpl; congruence. Qed.

Lemma map_id_value_inj l m : map id_value l = map id_value m -> l = m.
Proof.
  revert m. induction l as [|i l IH]; intros [|j m] H; try discriminate.
  - reflexivity.
  - injection H as Hi H. apply id_value_inj in Hi. subst. f_equal. now apply IH.
Qed.

Lemma arrange_ids_perm ids : Permutation (arrange_ids ids) ids.
Proof.
  pose proof (arrange_perm (map id_value ids)) as H.
  rewrite <- arrange_ids_values in H.
  apply Permutation_map_inv in H. destruct H as (m & Hm & Hperm).
  apply map_id_value_inj in Hm. subst m. now apply Permutation_sym.
Qed.

Lemma In_arrange_ids ids k : In k (arrange_ids ids) -> In k ids.
Proof. apply Permutation_in, arrange_ids_perm. Qed.

Lemma arrange_ids_one k : arrange_ids [k] = [k].
Proof.
  apply Permutation_length_1_inv, Permutation_sym, arrange_ids_perm.
Qed.

Lemma arrange_ids_nil : arrange_ids [] = [].
Proof. apply Permutation_nil, Permutation_sym, arrange_ids_perm. Qed.

Lemma group_rows_nil : group_rows [] = [].
Proof. unfold group_rows, groups_of. cbn. now rewrite arrange_ids_nil. Qed.

Lemma group_rows_perm rows : Permutation (group_rows rows) (first_groups rows).
Proof.
  unfold group_rows, first_groups, groups_of.
  apply Permutation_map, arrange_ids_perm.
Qed.

Lemma group_joined_rows rows :
  group_docs (Field ["_id"]) the_accumulators (map joined_row rows)
  = Ok (map group_doc (group_rows rows)).
Proof.
  unfold group_docs.
  rewrite (mapM_map_ok _ joined_row
             (fun r => (id_value (row_key r), joined_row r)))
    by (intros r _; reflexivity).
  cbn [bind]. rewrite map_map. cbn [fst].
  rewrite <- (map_map row_key id_value), distinct_id_values.
  rewrite <- arrange_ids_values.
  unfold group_rows, groups_of. rewrite (map_map _ group_doc).
  apply mapM_map_ok. intros i _.
  rewrite members_rows, (accumulate_rows i). reflexivity.
Qed.

Lemma group_rows_nonempty rows g : In g (group_rows rows) -> snd g <> [].
Proof.
  unfold group_rows, groups_of. rewrite in_map_iff. intros (k & <- & Hk). simpl.
  apply In_arrange_ids, distinct_ids_incl, in_map_iff in Hk.
  destruct Hk as (r & Hr & Hin).
  intros Hnil.
  assert (Hf : In r (filter (fun r0 => id_eqb k (row_key r0)) rows)).
  { apply filter_In. split; [exact Hin|]. rewrite Hr. apply id_eqb_refl. }
  rewrite Hnil in Hf. exact Hf.
Qed.

Lemma sum_line_totals rs :
  rs <> [] ->
  sum_values (map (fun r => VDouble (line_total r)) rs)
  = VDouble (dsum (map line_total rs)).
Proof.
  intros Hne. unfold sum_values.
  assert (Hd : doubles (map (fun r => VDouble (line_total r)) rs)
               = map line_total rs).
  { clear Hne. induction rs as [|r rs IH]; simpl; [|rewrite <- IH]; reflexivity. }
  rewrite Hd. destruct rs as [|r rs]; [congruence | reflexivity].
Qed.

Lemma shape_raw_item r : shape_item (raw_item r) = Ok (item_out r).
Proof. destruct r as [o it [[oid|s] p]]; reflexivity. Qed.

Lemma shape_group g :
  snd g <> [] -> shape_order (group_doc g) = Ok (order_out g).
Proof.
  intros Hne. unfold shape_order, group_doc, rename_id.
  rewrite (sum_line_totals Hne).
  assert (Hs : py_str (id_value (fst g)) = Ok (id_str (fst g)))
    by (destruct (fst g); reflexivity).
  cbn [dict_pop dict_get String.eqb Ascii.eqb Bool.eqb bind dict_remove].
  rewrite Hs.
  cbn [bind dict_set dict_item dict_get String.eqb Ascii.eqb Bool.eqb].
  rewrite (mapM_map_ok _ raw_item item_out) by (intros r _; apply shape_raw_item).
  reflexivity.
Qed.

(** The first two stages: the orders of the user, one row per item. *)
Lemma flattened_rows ps os u limit offset :
  run_stages (firstn 2 (orders_pipeline (store ps os) u limit offset))
             (orders_collection (store ps os))
  = Ok (map item_row (flatten (select_orders u os))).
Proof.
  unfold run_stages, orders_pipeline.
  cbn [firstn fold_left store orders_collection bind run match_stage
       unwind_stage].
  rewrite select_user. cbn [bind]. now rewrite unwind_items_all.
Qed.

(** The stages after them. *)
Lemma joined_and_grouped ps os u limit offset (rows : list (Header * OrderItem)) :
  1 <= limit -> 0 <= offset ->
  run_stages (skipn 2 (orders_pipeline (store ps os) u limit offset))
             (map item_row rows)
  = Ok (map group_doc (window limit offset (group_rows (inner_join ps rows)))).
Proof.
  intros Hl Ho. unfold run_stages, orders_pipeline.
  cbn [skipn fold_left bind run lookup_stage unwind_stage group_stage
       skip_stage limit_stage].
  cbn [collection String.eqb Ascii.eqb Bool.eqb products_collection store].
  rewrite map_map, (map_ext _ _ (lookup_item_row ps)).
  rewrite unwind_details_all. fold the_accumulators.
  rewrite group_joined_rows. cbn [bind].
  destruct (Z.ltb_spec offset 0) as [?|_]; [lia|]. cbn [bind].
  destruct (Z.ltb_spec limit 1) as [?|_]; [lia|].
  unfold window. now rewrite skipn_map, firstn_map.
Qed.

Lemma run_stages_split n (pipeline : list stage) rows :
  run_stages pipeline rows
  = bind (run_stages (firstn n pipeline) rows) (run_stages (skipn n pipeline)).
Proof.
  unfold run_stages.
  rewrite <- (firstn_skipn n pipeline) at 1. rewrite fold_left_app.
  generalize (fold_left (fun acc st => bind acc (run st)) (firstn n pipeline)
                        (Ok rows)).
  intros [rows'|e]; cbn [bind]; [reflexivity|].
  induction (skipn n pipeline) as [|st sts IH]; [reflexivity | exact IH].
Qed.

Lemma pipeline_encoded (db : database) u limit offset :
  mapM encoded (orders_pipeline db u limit offset)
  = _ <- bson_int offset ;; _ <- bson_int limit ;;
    Ok [tt; tt; tt; tt; tt; tt; tt].
Proof.
  unfold orders_pipeline.
  cbn [mapM encoded match_stage unwind_stage lookup_stage group_stage
       skip_stage limit_stage encodable_query forallb snd encodable andb bind].
  destruct (bson_int offset) as [[]|e]; cbn [bind]; [|reflexivity].
  destruct (bson_int limit) as [[]|e]; reflexivity.
Qed.

Lemma aggregate_orders ps os u limit offset :
  1 <= limit <= int64_max -> 0 <= offset <= int64_max ->
  aggregate (orders_collection (store ps os))
            (orders_pipeline (store ps os) u limit offset)
  = Ok (map group_doc (window limit offset (user_groups ps os u))).
Proof.
  intros Hl Ho. unfold aggregate.
  rewrite pipeline_encoded, !bson_int_ok by lia. cbn [bind].
  rewrite (run_stages_split 2), flattened_rows. cbn [bind].
  rewrite joined_and_grouped by lia. reflexivity.
Qed.

Lemma get_user_orders_refines ps os u limit offset :
  1 <= limit <= int64_max -> 0 <= offset <= int64_max ->
  get_user_orders (store ps os) u limit offset
  = Ok (envelope limit offset
          (map order_out (window limit offset (user_groups ps os u)))).
Proof.
  intros Hl Ho. unfold get_user_orders, validate_window.
  destruct (Z.ltb_spec limit 1) as [?|_]; [lia|].
  destruct (Z.ltb_spec offset 0) as [?|_]; [lia|]. cbn [orb bind].
  rewrite aggregate_orders by assumption. cbn [bind].
  rewrite (mapM_map_ok _ group_doc order_out).
  - reflexivity.
  - intros g Hg. apply shape_group.
    apply (@group_rows_nonempty (joined_rows ps os u)).
    exact (In_window _ _ _ _ Hg).
Qed.

(** A count beyond eight bytes stops the handler in the driver. *)
Lemma get_user_orders_overflow (db : database) u limit offset :
  1 <= limit -> 0 <= offset ->
  int64_max < limit \/ int64_max < offset ->
  get_user_orders db u limit offset = Raise OverflowError.
Proof.
  intros Hl Ho Hbig. unfold get_user_orders, validate_window.
  destruct (Z.ltb_spec limit 1) as [?|_]; [lia|].
  destruct (Z.ltb_spec offset 0) as [?|_]; [lia|]. cbn [orb bind].
  unfold aggregate. rewrite pipeline_encoded.
  destruct (Z_le_gt_dec offset int64_max) as [Hsmall|Hoff].
  - rewrite (bson_int_ok (n:=offset)) by lia. cbn [bind].
    rewrite bson_int_overflow by (destruct Hbig; lia). reflexivity.
  - rewrite bson_int_overflow by lia. reflexivity.
Qed.

(** *** [list_products] *)

Lemma special_not_alnum c : mem_ascii c special_chars = true -> is_alnum c = false.
Proof.
  destruct c as [[] [] [] [] [] [] [] []]; vm_compute; congruence.
Qed.

Lemma plain_not_meta c :
  mem_ascii c special_chars = false ->
  Ascii.eqb c "\" = false /\ mem_ascii c meta_chars = false.
Proof.
  destruct c as [[] [] [] [] [] [] [] []]; vm_compute; intuition congruence.
Qed.

Lemma literal_pattern_escape n : literal_pattern (re_escape n) = Some n.
Proof.
  induction n as [|c n IH]; cbn [re_escape].
  - reflexivity.
  - destruct (mem_ascii c special_chars) eqn:Hc.
    + change (literal_pattern (String "\" (String c (re_escape n))))
        with (if is_alnum c then None
              else option_map (String c) (literal_pattern (re_escape n))).
      rewrite (special_not_alnum _ Hc), IH. reflexivity.
    + destruct (plain_not_meta _ Hc) as [Hb Hm].
      cbn [literal_pattern]. rewrite Hb, Hm, IH. reflexivity.
Qed.

Lemma regex_search_escape n s :
  regex_search (re_escape n) "i" s
  = Ok (match_anywhere (casefold n) (casefold s)).
Proof. unfold regex_search. now rewrite literal_pattern_escape. Qed.

Lemma size_candidates p :
  path_values ["sizes"; "size"] (VDoc (stored_product p))
  = map (fun s => VStr (size s)) (sizes (snd p)).
Proof.
  cbn. induction (sizes (snd p)) as [|s l IH]; simpl; [|rewrite IH]; reflexivity.
Qed.

Lemma holds_equals_sizes sz (l : list Size) :
  holds_equals (VStr sz) (map (fun s => VStr (size s)) l)
  = existsb (fun s => String.eqb (size s) sz) l.
Proof.
  unfold holds_equals. rewrite orb_false_r. induction l as [|s l IH]; simpl.
  - reflexivity.
  - rewrite IH. unfold equals_value. simpl. now rewrite orb_false_r.
Qed.


Lemma matches_products_query name_q size_q p :
  matches (products_query name_q size_q) (stored_product p)
  = Ok (listed name_q size_q p).
Proof.
  unfold products_query, listed, name_selected, size_selected.
  destruct (truthy name_q) as [n|], (truthy size_q) as [sz|];
    cbn [app matches]; rewrite ?size_candidates;
    cbn [path_values stored_product Product_dict dict_get String.eqb Ascii.eqb
         Bool.eqb holds mapM regex_value bind existsb id];
    rewrite ?regex_search_escape, ?holds_equals_sizes; cbn [bind existsb id];
    rewrite ?orb_false_r, ?andb_true_r; reflexivity.
Qed.

Lemma select_products_query name_q size_q ps :
  select (products_query name_q size_q) (map stored_product ps)
  = Ok (map stored_product (filter (listed name_q size_q) ps)).
Proof.
  induction ps as [|p ps IH]; simpl.
  - reflexivity.
  - rewrite matches_products_query, IH. simpl.
    destruct (listed name_q size_q p); reflexivity.
Qed.

Lemma rename_projected p :
  rename_id (project_out ["sizes"] (stored_product p)) = Ok (product_out p).
Proof. destruct p as [[o|s] p]; reflexivity. Qed.

Lemma products_query_built name_q size_q :
  match truthy size_q with
  | Some sz =>
      match truthy name_q with
      | Some n => [] ++ [(["name"], Regex (re_escape n) "i")]
      | None => []
      end ++ [(["sizes"; "size"], Equals (VStr sz))]
  | None =>
      match truthy name_q with
      | Some n => [] ++ [(["name"], Regex (re_escape n) "i")]
      | None => []
      end
  end = products_query name_q size_q.
Proof.
  unfold products_query. destruct (truthy name_q), (truthy size_q);
    rewrite ?app_nil_r; reflexivity.
Qed.

Lemma products_query_encodable name_q size_q :
  encodable_query (products_query name_q size_q) = true.
Proof.
  unfold products_query. destruct (truthy name_q), (truthy size_q); reflexivity.
Qed.

Lemma list_products_refines ps os name_q size_q limit offset :
  1 <= limit <= int64_max -> 0 <= offset <= int64_max ->
  list_products (store ps os) name_q size_q limit offset
  = Ok (envelope limit offset
          (map product_out
               (window limit offset (filter (listed name_q size_q) ps)))).
Proof.
  intros Hl Ho. unfold list_products, validate_window.
  destruct (Z.ltb_spec limit 1) as [?|_]; [lia|].
  destruct (Z.ltb_spec offset 0) as [?|_]; [lia|]. cbn [orb bind].
  cbv zeta. rewrite products_query_built.
  unfold cursor_skip. destruct (Z.ltb_spec offset 0) as [?|_]; [lia|].
  cbn [bind]. unfold cursor_list, cursor_limit, find.
  cbn [cur_coll cur_query cur_excluded cur_skip cur_limit store
       products_collection].
  rewrite products_query_encodable. cbn [bind].
  rewrite Z.abs_eq by lia. rewrite !bson_int_ok by lia. cbn [bind].
  rewrite select_products_query. cbn [bind].
  destruct (Z.eqb_spec limit 0) as [?|_]; [lia|].
  rewrite skipn_map, firstn_map, map_map. fold (window limit offset (filter (listed name_q size_q) ps)).
  rewrite (mapM_map_ok _ _ product_out).
  - reflexivity.
  - intros p _. apply rename_projected.
Qed.

Lemma list_products_overflow (db : database) name_q size_q limit offset :
  1 <= limit -> 0 <= offset ->
  int64_max < limit \/ int64_max < offset ->
  list_products db name_q size_q limit offset = Raise OverflowError.
Proof.
  intros Hl Ho Hbig. unfold list_products, validate_window.
  destruct (Z.ltb_spec limit 1) as [?|_]; [lia|].
  destruct (Z.ltb_spec offset 0) as [?|_]; [lia|]. cbn [orb bind].
  cbv zeta. rewrite products_query_built.
  unfold cursor_skip. destruct (Z.ltb_spec offset 0) as [?|_]; [lia|].
  cbn [bind]. unfold cursor_list, cursor_limit, find.
  cbn [cur_coll cur_query cur_excluded cur_skip cur_limit].
  rewrite products_query_encodable. cbn [bind].
  rewrite Z.abs_eq by lia.
  destruct (Z_le_gt_dec offset int64_max) as [Hsmall|Hoff].
  - rewrite (bson_int_ok (n:=offset)) by lia. cbn [bind].
    rewrite bson_int_overflow by (destruct Hbig; lia). reflexivity.
  - rewrite bson_int_overflow by lia. reflexivity.
Qed.

(** *** The literal search is a substring test *)

Lemma match_here_spec lits subject :
  match_here lits subject = true
  <-> exists after, subject = (lits ++ after)%string.
Proof.
  revert subject. induction lits as [|a lits IH]; intros subject.
  - simpl. split; [intros _; now exists subject | reflexivity].
  - destruct subject as [|b subject]; simpl.
    + split; [discriminate | intros [after H]; discriminate].
    + rewrite andb_true_iff, Ascii.eqb_eq, IH. split.
      * intros [Hab [after H]]. exists after. now rewrite Hab, H.
      * intros [after H]. injection H as Hab H. split; [now symmetry | now exists after].
Qed.

Lemma match_anywhere_substring lits subject :
  match_anywhere lits subject = true
  <-> exists before after, subject = (before ++ lits ++ after)%string.
Proof.
  induction subject as [|b subject IH].
  - simpl. rewrite orb_false_r, match_here_spec. split.
    + intros [after H]. now exists EmptyString, after.
    + intros [[|c before] [after H]]; [now exists after | discriminate].
  - cbn [match_anywhere]. rewrite orb_true_iff, match_here_spec, IH. split.
    + intros [[after H] | (before & after & H)].
      * now exists EmptyString, after.
      * exists (String b before), after. simpl. now rewrite H.
    + intros [[|c before] [after H]].
      * left. now exists after.
      * right. simpl in H. injection H as _ H. now exists before, after.
Qed.

Lemma match_anywhere_spec text subject :
  match_anywhere (casefold text) (casefold subject) = true
  <-> contains_caseless text subject.
Proof. apply match_anywhere_substring. Qed.

(** *** The rows of a store, order by order *)

Lemma joined_rows_app ps os1 os2 u :
  joined_rows ps (os1 ++ os2) u = joined_rows ps os1 u ++ joined_rows ps os2 u.
Proof.
  unfold joined_rows, inner_join, flatten, select_orders.
  now rewrite filter_app, !flat_map_app.
Qed.

Lemma joined_rows_cons ps o os u :
  joined_rows ps (o :: os) u = joined_rows ps [o] u ++ joined_rows ps os u.
Proof. apply (joined_rows_app ps [o] os u). Qed.

Lemma joined_rows_one ps o u :
  joined_rows ps [o] u
  = if String.eqb (userId (snd o)) u
    then inner_join ps (map (pair (header o)) (items (snd o)))
    else [].
Proof.
  unfold joined_rows, select_orders, flatten. simpl.
  destruct (String.eqb (userId (snd o)) u); simpl; [now rewrite app_nil_r | reflexivity].
Qed.

Lemma referenced_none ps it :
  (forall p, In p ps -> fst p <> IdStr (productId it)) -> referenced ps it = [].
Proof.
  intros H. unfold referenced. induction ps as [|p ps IH]; simpl.
  - reflexivity.
  - destruct (id_eqb (fst p) (IdStr (productId it))) eqn:E.
    + apply id_eqb_eq in E. now destruct (H p (or_introl eq_refl)).
    + apply IH. intros q Hq. apply H. now right.
Qed.

Lemma inner_join_app ps rows1 rows2 :
  inner_join ps (rows1 ++ rows2) = inner_join ps rows1 ++ inner_join ps rows2.
Proof. unfold inner_join. apply flat_map_app. Qed.

Lemma inner_join_cons ps r rows :
  inner_join ps (r :: rows)
  = map (Build_Row (fst r) (snd r)) (referenced ps (snd r)) ++ inner_join ps rows.
Proof. reflexivity. Qed.

Lemma inner_join_unmatched ps h its :
  (forall it, In it its -> referenced ps it = []) ->
  inner_join ps (map (pair h) its) = [].
Proof.
  intros H. induction its as [|it its IH]; simpl.
  - reflexivity.
  - unfold inner_join in *. simpl. rewrite (H it (or_introl eq_refl)). simpl.
    apply IH. intros x Hx. apply H. now right.
Qed.

Lemma inner_join_matched ps rows r :
  In r (inner_join ps rows) ->
  In (row_product r) ps /\ fst (row_product r) = IdStr (productId (row_item r))
  /\ In (row_order r, row_item r) rows.
Proof.
  unfold inner_join. rewrite in_flat_map. intros ([h it] & Hin & Hr).
  apply in_map_iff in Hr. destruct Hr as (p & <- & Hp).
  apply filter_In in Hp. destruct Hp as [Hp E]. apply id_eqb_eq in E.
  simpl. auto.
Qed.

Lemma joined_rows_matched ps os u r :
  In r (joined_rows ps os u) ->
  In (row_product r) ps /\ fst (row_product r) = IdStr (productId (row_item r)).
Proof. intros H. apply inner_join_matched in H. tauto. Qed.

Lemma group_rows_member rows g r :
  In g (group_rows rows) -> In r (snd g) -> In r rows /\ row_key r = fst g.
Proof.
  unfold group_rows, groups_of. rewrite in_map_iff. intros (k & <- & _). simpl.
  rewrite filter_In. intros [Hin E]. apply id_eqb_eq in E. auto.
Qed.

(** *** Writes, seen on stores of the data model *)

Lemma has_id_stored_products o ps :
  has_id (VOid o) (map stored_product ps)
  = existsb (fun p => id_eqb (fst p) (IdOid o)) ps.
Proof.
  unfold has_id. induction ps as [|p ps IH]; simpl.
  - reflexivity.
  - rewrite IH. f_equal. apply (value_eqb_id (fst p) (IdOid o)).
Qed.

Lemma has_id_stored_orders o os :
  has_id (VOid o) (map stored_order os)
  = existsb (fun x => id_eqb (fst x) (IdOid o)) os.
Proof.
  unfold has_id. induction os as [|x os IH]; simpl.
  - reflexivity.
  - rewrite IH. f_equal. apply (value_eqb_id (fst x) (IdOid o)).
Qed.

Lemma insert_one_cases o (d : doc) coll :
  (fst (insert_one o d coll) = coll
   /\ exists e, snd (insert_one o d coll) = Raise e)
  \/ (fst (insert_one o d coll) = coll ++ [("_id", VOid o) :: d]
      /\ snd (insert_one o d coll) = Ok o
      /\ has_id (VOid o) coll = false
      /\ encodable (VDoc (("_id", VOid o) :: d)) = true).
Proof.
  unfold insert_one.
  destruct (encodable (VDoc (("_id", VOid o) :: d))) eqn:Henc; cbn [negb].
  - destruct (has_id (VOid o) coll) eqn:Hdup; cbn [fst snd].
    + left. split; [reflexivity | now exists DuplicateKeyError].
    + right. auto.
  - left. split; [reflexivity | now exists OverflowError].
Qed.

Lemma create_product_cases ps os o (p : Product) :
  (fst (create_product o p (store ps os)) = store ps os
   /\ exists e, snd (create_product o p (store ps os)) = Raise e)
  \/ (fst (create_product o p (store ps os)) = store (ps ++ [(IdOid o, p)]) os
      /\ snd (create_product o p (store ps os)) = Ok [("id", VStr (oid_str o))]
      /\ (forall q, In q ps -> fst q <> IdOid o)).
Proof.
  unfold create_product. cbn [fst snd store products_collection orders_collection].
  destruct (insert_one_cases o (Product_dict p) (map stored_product ps))
    as [[Hf [e He]]|(Hf & Hs & Hid & _)]; rewrite Hf, ?He, ?Hs; cbn [bind].
  - left. split; [reflexivity | now exists e].
  - right. split; [|split; [reflexivity|]].
    + unfold store. now rewrite map_app.
    + rewrite has_id_stored_products in Hid. intros q Hq E.
      assert (Hex : existsb (fun p0 => id_eqb (fst p0) (IdOid o)) ps = true).
      { apply existsb_exists. exists q. split; [exact Hq | now apply id_eqb_eq]. }
      congruence.
Qed.

Lemma create_order_cases ps os o (ord : Order) :
  (fst (create_order o ord (store ps os)) = store ps os
   /\ exists e, snd (create_order o ord (store ps os)) = Raise e)
  \/ (fst (create_order o ord (store ps os)) = store ps (os ++ [(IdOid o, ord)])
      /\ snd (create_order o ord (store ps os)) = Ok [("id", VStr (oid_str o))]
      /\ (forall x, In x os -> fst x <> IdOid o)).
Proof.
  unfold create_order. cbn [fst snd store products_collection orders_collection].
  destruct (insert_one_cases o (Order_dict ord) (map stored_order os))
    as [[Hf [e He]]|(Hf & Hs & Hid & _)]; rewrite Hf, ?He, ?Hs; cbn [bind].
  - left. split; [reflexivity | now exists e].
  - right. split; [|split; [reflexivity|]].
    + unfold store. now rewrite map_app.
    + rewrite has_id_stored_orders in Hid. intros x Hx E.
      assert (Hex : existsb (fun x0 => id_eqb (fst x0) (IdOid o)) os = true).
      { apply existsb_exists. exists x. split; [exact Hx | now apply id_eqb_eq]. }
      congruence.
Qed.

Lemma api_reachable_store db :
  api_reachable db ->
  exists ps os,
    db = store ps os /\ (forall p, In p ps -> exists o, fst p = IdOid o).
Proof.
  induction 1 as [|db o p _ (ps & os & -> & Hoid)
                  |db o ord _ (ps & os & -> & Hoid)].
  - exists [], []. split; [reflexivity | intros p []].
  - destruct (create_product_cases ps os o p) as [[Hf _]|(Hf & _ & _)];
      rewrite Hf.
    + now exists ps, os.
    + exists (ps ++ [(IdOid o, p)]), os. split; [reflexivity|].
      intros q Hq. apply in_app_or in Hq. destruct Hq as [Hq|[<-|[]]].
      * now apply Hoid.
      * now exists o.
  - destruct (create_order_cases ps os o ord) as [[Hf _]|(Hf & _ & _)];
      rewrite Hf.
    + now exists ps, os.
    + now exists ps, (os ++ [(IdOid o, ord)]).
Qed.

Lemma joined_rows_other_users ps os u :
  (forall o, In o os -> userId (snd o) <> u) -> joined_rows ps os u = [].
Proof.
  intros Hnone. unfold joined_rows.
  assert (Hsel : select_orders u os = []).
  { unfold select_orders. induction os as [|o os' IH]; simpl.
    - reflexivity.
    - destruct (String.eqb_spec (userId (snd o)) u) as [E|_].
      + now destruct (Hnone o (or_introl eq_refl)).
      + apply IH. intros o' Ho'. apply Hnone. now right. }
  now rewrite Hsel.
Qed.

Lemma referenced_unique ps1 p ps2 it :
  fst p = IdStr (productId it) ->
  (forall q, In q (ps1 ++ ps2) -> fst q <> IdStr (productId it)) ->
  referenced (ps1 ++ p :: ps2) it = [p].
Proof.
  intros Hp Hnone. unfold referenced. rewrite filter_app. cbn [filter].
  rewrite Hp, id_eqb_refl.
  fold (referenced ps1 it). fold (referenced ps2 it).
  rewrite !referenced_none; [reflexivity| |];
    intros q Hq; apply Hnone, in_or_app; auto.
Qed.

Lemma data_of_envelope limit offset returned :
  data_of (envelope limit offset returned) = map VDoc returned.
Proof. reflexivity. Qed.


(** *** The three outcomes of a read *)

Lemma get_user_orders_invalid (db : database) u limit offset :
  limit < 1 \/ offset < 0 ->
  get_user_orders db u limit offset = Raise RequestValidationError.
Proof.
  intros H. unfold get_user_orders, validate_window.
  destruct (Z.ltb_spec limit 1), (Z.ltb_spec offset 0); try reflexivity; lia.
Qed.

Lemma list_products_invalid (db : database) name_q size_q limit offset :
  limit < 1 \/ offset < 0 ->
  list_products db name_q size_q limit offset = Raise RequestValidationError.
Proof.
  intros H. unfold list_products, validate_window.
  destruct (Z.ltb_spec limit 1), (Z.ltb_spec offset 0); try reflexivity; lia.
Qed.

Lemma window_cases limit offset :
  (limit < 1 \/ offset < 0)
  \/ (1 <= limit /\ 0 <= offset /\ (int64_max < limit \/ int64_max < offset))
  \/ (1 <= limit <= int64_max /\ 0 <= offset <= int64_max).
Proof. lia. Qed.

Lemma get_user_orders_ok_window (db : database) u limit offset body :
  get_user_orders db u limit offset = Ok body ->
  1 <= limit <= int64_max /\ 0 <= offset <= int64_max.
Proof.
  intros H.
  destruct (window_cases limit offset) as [Hbad|[(Hl & Ho & Hbig)|Hin]].
  - rewrite get_user_orders_invalid in H by assumption. discriminate.
  - rewrite get_user_orders_overflow in H by assumption. discriminate.
  - exact Hin.
Qed.

Lemma list_products_ok_window (db : database) name_q size_q limit offset body :
  list_products db name_q size_q limit offset = Ok body ->
  1 <= limit <= int64_max /\ 0 <= offset <= int64_max.
Proof.
  intros H.
  destruct (window_cases limit offset) as [Hbad|[(Hl & Ho & Hbig)|Hin]].
  - rewrite list_products_invalid in H by assumption. discriminate.
  - rewrite list_products_overflow in H by assumption. discriminate.
  - exact Hin.
Qed.

(** Two stores on which the user has the same groups answer alike, at
    every window. *)
Lemma get_user_orders_same_groups ps os ps' os' u limit offset :
  user_groups ps os u = user_groups ps' os' u ->
  get_user_orders (store ps os) u limit offset
  = get_user_orders (store ps' os') u limit offset.
Proof.
  intros H.
  destruct (window_cases limit offset) as [Hbad|[(Hl & Ho & Hbig)|[Hl Ho]]].
  - now rewrite !get_user_orders_invalid.
  - now rewrite !get_user_orders_overflow.
  - now rewrite !get_user_orders_refines, H.
Qed.

(** The product listing reads the products alone. *)
Lemma list_products_same_products ps os os' name_q size_q limit offset :
  list_products (store ps os) name_q size_q limit offset
  = list_products (store ps os') name_q size_q limit offset.
Proof.
  destruct (window_cases limit offset) as [Hbad|[(Hl & Ho & Hbig)|[Hl Ho]]].
  - now rewrite !list_products_invalid.
  - now rewrite !list_products_overflow.
  - now rewrite !list_products_refines.
Qed.

End Refinement.


(* ------------------------------------------------------------------ *)
(** ** Properties of the endpoints *)

Section Properties.
Context {A : Arith} {Eng : Engine A}.

(** C1: an item of an order whose [productId] equals no product identifier
    is discarded by the inner join.  At every window the response is the
    one the store gives with that item taken out of the order (so the item
    adds nothing to any total), and where the window is one the driver can
    encode there is a response body, in which no returned item carries the
    item's [productId]. *)
Theorem unmatched_row_discarded
    ps os1 os2 i usr its1 it its2 u limit offset :
  (forall p, In p ps -> fst p <> IdStr (productId it)) ->
  get_user_orders
    (store ps (os1 ++ (i, {| userId := usr; items := its1 ++ it :: its2 |}) :: os2))
    u limit offset
  = get_user_orders
      (store ps (os1 ++ (i, {| userId := usr; items := its1 ++ its2 |}) :: os2))
      u limit offset
  /\ (1 <= limit <= int64_max -> 0 <= offset <= int64_max ->
      exists body,
        get_user_orders
          (store ps (os1 ++ (i, {| userId := usr; items := its1 ++ it :: its2 |}) :: os2))
          u limit offset = Ok body
        /\ get_user_orders
             (store ps (os1 ++ (i, {| userId := usr; items := its1 ++ its2 |}) :: os2))
             u limit offset = Ok body
        /\ forall order item,
             In order (data_of body) -> In item (items_of order) ->
             field "productId" item <> Some (VStr (productId it))).
Proof.
  intros Hnone.
  assert (Hgroups :
    user_groups ps (os1 ++ (i, {| userId := usr; items := its1 ++ it :: its2 |}) :: os2) u
    = user_groups ps (os1 ++ (i, {| userId := usr; items := its1 ++ its2 |}) :: os2) u).
  { unfold user_groups.
    rewrite !joined_rows_app, !(joined_rows_cons ps _ os2), !joined_rows_one.
    cbn [snd userId items header fst].
    destruct (String.eqb usr u); [|reflexivity].
    rewrite !map_app, !inner_join_app. cbn [map].
    rewrite inner_join_cons. cbn [snd].
    rewrite (referenced_none ps it Hnone). reflexivity. }
  split; [now apply get_user_orders_same_groups|].
  intros Hl Ho. eexists. split; [|split].
  - apply get_user_orders_refines; assumption.
  - rewrite get_user_orders_refines by assumption. now rewrite Hgroups.
  - intros order item Horder Hitem Hpid.
    rewrite data_of_envelope, map_map in Horder.
    apply in_map_iff in Horder. destruct Horder as (g & <- & Hg).
    apply In_window in Hg.
    unfold items_of in Hitem. cbn in Hitem.
    apply in_map_iff in Hitem. destruct Hitem as (r & <- & Hr).
    destruct (group_rows_member _ _ _ Hg Hr) as [Hrow _].
    apply joined_rows_matched in Hrow. destruct Hrow as [Hin Hid].
    cbn in Hpid. injection Hpid as Hpid. rewrite Hpid in Hid.
    exact (Hnone _ Hin Hid).
Qed.


(** C3, as the pipeline has it: an order of which every item misses the
    join leaves no trace in the response, which at every window is the
    response of the store without that order; where the window is one the
    driver can encode, that response is a body. *)
Theorem order_without_match_is_absent ps os1 o os2 u limit offset :
  (forall it p, In it (items (snd o)) -> In p ps ->
     fst p <> IdStr (productId it)) ->
  get_user_orders (store ps (os1 ++ o :: os2)) u limit offset
  = get_user_orders (store ps (os1 ++ os2)) u limit offset
  /\ (1 <= limit <= int64_max -> 0 <= offset <= int64_max ->
      exists body,
        get_user_orders (store ps (os1 ++ o :: os2)) u limit offset = Ok body
        /\ get_user_orders (store ps (os1 ++ os2)) u limit offset = Ok body).
Proof.
  intros Hnone.
  assert (Hgroups : user_groups ps (os1 ++ o :: os2) u
                    = user_groups ps (os1 ++ os2) u).
  { unfold user_groups.
    rewrite !joined_rows_app, (joined_rows_cons ps o os2), joined_rows_one.
    destruct (String.eqb (userId (snd o)) u); [|reflexivity].
    rewrite inner_join_unmatched; [reflexivity|].
    intros it Hit. apply referenced_none. intros p Hp. now apply (Hnone it p). }
  split; [now apply get_user_orders_same_groups|].
  intros Hl Ho. eexists. split.
  - apply get_user_orders_refines; assumption.
  - rewrite get_user_orders_refines by assumption. now rewrite Hgroups.
Qed.

(** C4: the second stage of the pipeline that [get_user_orders] runs turns
    the orders of the user into one row per (order, item) pair, in order:
    an order of the user with N items gives N rows, an order without items
    gives none, so that the rows, and with them the response, are those of
    the store without it.  The response is computed from these rows by the
    remaining stages. *)
Theorem unwind_one_row_per_item ps os1 o os2 u limit offset :
  let rows_of_order := fun o' : StoredOrder =>
        map (fun it => item_row (header o', it)) (items (snd o')) in
  let flattened := fun os =>
        run_stages (firstn 2 (orders_pipeline (store ps os) u limit offset))
                   (orders_collection (store ps os)) in
  (forall os, flattened os = Ok (flat_map rows_of_order (select_orders u os)))
  /\ (forall os,
        1 <= limit <= int64_max -> 0 <= offset <= int64_max ->
        aggregate (orders_collection (store ps os))
                  (orders_pipeline (store ps os) u limit offset)
        = rows <- flattened os ;;
          run_stages (skipn 2 (orders_pipeline (store ps os) u limit offset))
                     rows)
  /\ (userId (snd o) = u ->
      exists before after,
        flattened (os1 ++ o :: os2) = Ok (before ++ rows_of_order o ++ after)
        /\ flattened (os1 ++ os2) = Ok (before ++ after)
        /\ List.length (rows_of_order o) = List.length (items (snd o)))
  /\ (items (snd o) = [] ->
      flattened (os1 ++ o :: os2) = flattened (os1 ++ os2)
      /\ get_user_orders (store ps (os1 ++ o :: os2)) u limit offset
         = get_user_orders (store ps (os1 ++ os2)) u limit offset).
Proof.
  intros rows_of_order flattened.
  assert (Hflat : forall os,
             flattened os = Ok (flat_map rows_of_order (select_orders u os))).
  { intros os. unfold flattened. rewrite flattened_rows. f_equal.
    unfold flatten.
    induction (select_orders u os) as [|o' os' IH]; cbn [flat_map map].
    - reflexivity.
    - rewrite map_app, IH, map_map. reflexivity. }
  assert (Hsel : forall l1 l2, select_orders u (l1 ++ l2)
                               = select_orders u l1 ++ select_orders u l2).
  { intros l1 l2. unfold select_orders. apply filter_app. }
  split; [exact Hflat|]. split; [|split].
  - intros os Hl Ho. unfold aggregate.
    rewrite pipeline_encoded, !bson_int_ok by lia. cbn [bind].
    apply run_stages_split.
  - intros Hu. exists (flat_map rows_of_order (select_orders u os1)),
                      (flat_map rows_of_order (select_orders u os2)).
    rewrite !Hflat, !Hsel, !flat_map_app.
    change (o :: os2) with ([o] ++ os2). rewrite Hsel, flat_map_app.
    unfold select_orders at 2. cbn [filter]. rewrite Hu, String.eqb_refl.
    cbn [flat_map]. rewrite app_nil_r.
    split; [reflexivity|]. split; [reflexivity|].
    unfold rows_of_order. apply length_map.
  - intros Hempty. split.
    + rewrite !Hflat, !Hsel, !flat_map_app.
      change (o :: os2) with ([o] ++ os2). rewrite Hsel, flat_map_app.
      unfold select_orders at 2. cbn [filter].
      destruct (String.eqb (userId (snd o)) u); [|reflexivity].
      cbn [flat_map]. unfold rows_of_order at 2. now rewrite Hempty.
    + apply get_user_orders_same_groups. unfold user_groups.
      rewrite !joined_rows_app, (joined_rows_cons ps o os2), joined_rows_one.
      rewrite Hempty. destruct (String.eqb (userId (snd o)) u); reflexivity.
Qed.

(** C5, within the counts the driver can encode: for a limit from 1 and an
    offset from 0, neither above [int64_max], both read endpoints answer
    with the envelope [next = offset + limit],
    [previous = max (0, offset - limit)] and [limit] the number of entries
    of [data]. *)
Theorem pagination_envelope ps os u name_q size_q limit offset :
  1 <= limit <= int64_max -> 0 <= offset <= int64_max ->
  (exists body,
     get_user_orders (store ps os) u limit offset = Ok body
     /\ page_of body "next" = Some (VInt (offset + limit))
     /\ page_of body "previous" = Some (VInt (Z.max 0 (offset - limit)))
     /\ page_of body "limit" = Some (VInt (len (data_of body))))
  /\ (exists body,
        list_products (store ps os) name_q size_q limit offset = Ok body
        /\ page_of body "next" = Some (VInt (offset + limit))
        /\ page_of body "previous" = Some (VInt (Z.max 0 (offset - limit)))
        /\ page_of body "limit" = Some (VInt (len (data_of body)))).
Proof.
  intros Hl Ho. split; eexists;
    (split; [first [apply get_user_orders_refines | apply list_products_refines];
             assumption|]);
    rewrite data_of_envelope; unfold len; rewrite length_map;
    repeat split; reflexivity.
Qed.

(** C6, within the counts the driver can encode: [data] holds the result
    groups, in the order in which the engine emits them, with the first
    [offset] of them skipped and up to [limit] taken.  That order is some
    arrangement of one group per order that has a joined row; whatever it
    is, [data] has [min (limit, max (0, groups - offset))] entries, so at
    most [limit]. *)
Theorem data_within_limit ps os u limit offset :
  1 <= limit <= int64_max -> 0 <= offset <= int64_max ->
  exists body groups,
    get_user_orders (store ps os) u limit offset = Ok body
    /\ Permutation groups (first_groups (joined_rows ps os u))
    /\ data_of body
       = map (fun g => VDoc (order_out g))
             (firstn (Z.to_nat limit) (skipn (Z.to_nat offset) groups))
    /\ len (data_of body)
       = Z.min limit
               (Z.max 0 (len (first_groups (joined_rows ps os u)) - offset))
    /\ len (data_of body) <= limit.
Proof.
  intros Hl Ho. exists (envelope limit offset
                          (map order_out (window limit offset (user_groups ps os u)))),
                       (user_groups ps os u).
  assert (Hlen : len (data_of (envelope limit offset
                    (map order_out (window limit offset (user_groups ps os u)))))
                 = Z.min limit
                     (Z.max 0 (len (first_groups (joined_rows ps os u)) - offset))).
  { rewrite data_of_envelope. unfold len, window.
    rewrite !length_map, length_firstn, length_skipn.
    rewrite <- (Permutation_length (group_rows_perm (joined_rows ps os u))).
    fold (user_groups ps os u). lia. }
  split; [|split; [|split; [|split]]].
  - apply get_user_orders_refines; assumption.
  - apply group_rows_perm.
  - rewrite data_of_envelope, map_map. reflexivity.
  - exact Hlen.
  - rewrite Hlen. lia.
Qed.

(** C8, within the counts the driver can encode: a user without orders
    gets a successful response with an empty [data] array. *)
Theorem no_orders_empty_data ps os u limit offset :
  1 <= limit <= int64_max -> 0 <= offset <= int64_max ->
  (forall o, In o os -> userId (snd o) <> u) ->
  get_user_orders (store ps os) u limit offset = Ok (envelope limit offset [])
  /\ data_of (envelope limit offset []) = [].
Proof.
  intros Hl Ho Hnone. split; [|reflexivity].
  rewrite get_user_orders_refines by assumption.
  unfold user_groups. rewrite (joined_rows_other_users ps os Hnone).
  rewrite group_rows_nil. unfold window. now rewrite skipn_nil, firstn_nil.
Qed.

(** C7: with a [name] parameter and no [size], [list_products] returns, in
    store order and within the page window, the products whose name contains
    the text, letter case aside, and only those: the case folding of the
    name contains the case folding of the text, so a name that folds to the
    same string as the text is found.  For the text ["shirt"] it returns
    ["Red Shirt"] and ["shirt-style-2"] and not ["Pants"]. *)
Theorem name_filter_is_caseless_substring ps os text limit offset :
  1 <= limit <= int64_max -> 0 <= offset <= int64_max ->
  (exists sel : StoredProduct -> bool,
     (forall p, sel p = true <-> contains_caseless text (name (snd p)))
     /\ (forall p, casefold (name (snd p)) = casefold text -> sel p = true)
     /\ list_products (store ps os) (Some text) None limit offset
        = Ok (envelope limit offset
                (map product_out (window limit offset (filter sel ps)))))
  /\ forall (i1 i2 i3 : Id) (x1 x2 x3 : num) (s1 s2 s3 : list Size),
       let red_shirt := (i1, {| name := "Red Shirt"; price := x1; sizes := s1 |}) in
       let pants := (i2, {| name := "Pants"; price := x2; sizes := s2 |}) in
       let style := (i3, {| name := "shirt-style-2"; price := x3; sizes := s3 |}) in
       list_products (store [red_shirt; pants; style] os) (Some "shirt") None
                     default_limit default_offset
       = Ok (envelope default_limit default_offset
               [product_out red_shirt; product_out style]).
Proof.
  intros Hl Ho. split.
  - exists (fun p => match_anywhere (casefold text) (casefold (name (snd p)))).
    split; [|split].
    + intros p. apply match_anywhere_spec.
    + intros p Hp. apply match_anywhere_spec.
      exists EmptyString, EmptyString. rewrite Hp. cbn [String.append].
      clear. induction (casefold text) as [|c s IH]; cbn [String.append].
      * reflexivity.
      * now rewrite <- IH.
    + rewrite list_products_refines by assumption.
      do 3 f_equal. unfold window. do 2 f_equal. apply filter_ext. intros p.
      unfold listed, name_selected, size_selected. cbn [truthy].
      rewrite andb_true_r. destruct text as [|c text]; [|reflexivity].
      cbn [truthy]. rewrite (casefold_ascii EmptyString eq_refl).
      cbn [lowercase]. now destruct (casefold (name (snd p))).
  - intros. rewrite list_products_refines
      by (unfold default_limit, default_offset, int64_max; lia).
    unfold listed, name_selected, size_selected, red_shirt, pants, style.
    cbn [filter truthy snd name].
    rewrite (casefold_ascii "shirt" eq_refl), (casefold_ascii "Red Shirt" eq_refl),
      (casefold_ascii "Pants" eq_refl), (casefold_ascii "shirt-style-2" eq_refl).
    reflexivity.
Qed.

(** C10: [create_product] stores every product under an ObjectId and
    [create_order] stores every [productId] as a string, and a string equals
    no ObjectId.  In a store built by the two POST endpoints alone no item
    finds a product: every response body of [get_user_orders] has an empty
    [data] array, for every user, and there is one at every window the
    driver can encode. *)
Theorem api_built_store_joins_nothing db u limit offset :
  api_reachable db ->
  (forall s o, value_eqb (VStr s) (VOid o) = false
               /\ value_eqb (VOid o) (VStr s) = false)
  /\ (exists ps os,
        db = store ps os
        /\ (forall p, In p ps -> exists o, fst p = IdOid o)
        /\ (forall it, referenced ps it = [])
        /\ joined_rows ps os u = [])
  /\ (1 <= limit <= int64_max -> 0 <= offset <= int64_max ->
      get_user_orders db u limit offset = Ok (envelope limit offset []))
  /\ (forall body, get_user_orders db u limit offset = Ok body ->
        data_of body = []).
Proof.
  intros Hreach. split; [intros s [n]; split; reflexivity|].
  destruct (api_reachable_store Hreach) as (ps & os & -> & Hoid).
  assert (Href : forall it, referenced ps it = []).
  { intros it. apply referenced_none. intros p Hp E.
    destruct (Hoid p Hp) as [o Ho']. congruence. }
  assert (Hrows : joined_rows ps os u = []).
  { unfold joined_rows, inner_join.
    induction (flatten (select_orders u os)) as [|r rows IH]; simpl.
    - reflexivity.
    - now rewrite Href, IH. }
  assert (Hok : 1 <= limit <= int64_max -> 0 <= offset <= int64_max ->
                get_user_orders (store ps os) u limit offset
                = Ok (envelope limit offset [])).
  { intros Hl Ho. rewrite get_user_orders_refines by assumption.
    unfold user_groups. rewrite Hrows, group_rows_nil. unfold window.
    now rewrite skipn_nil, firstn_nil. }
  split; [|split].
  - exists ps, os. auto.
  - exact Hok.
  - intros body Hbody.
    destruct (get_user_orders_ok_window _ _ _ _ Hbody) as [Hl Ho].
    rewrite Hok in Hbody by assumption. injection Hbody as <-. reflexivity.
Qed.

End Properties.


(* ------------------------------------------------------------------ *)
(** ** The scenario of the specification, in double precision *)

Section Scenarios.
#[local] Existing Instance binary64.
Context {Eng : Engine binary64}.
Import Scenario.

(** C9: user ["u1"] has one order, with the items [[{productId: "p1",
    qty: 2}]], and the product stored under the identifier ["p1"] has price
    10.0.  Then [get_user_orders "u1"] returns that one order with
    [total] 20.0; the product details of its item carry [id] ["p1"] and
    have neither a [sizes] nor an [_id] field. *)
Theorem scenario_one_order_one_product
    (ps1 ps2 : list StoredProduct) (os1 os2 : list StoredOrder)
    (i : Id) (p1 : Product) :
  (forall o, In o (os1 ++ os2) -> userId (snd o) <> "u1") ->
  (forall q, In q (ps1 ++ ps2) -> fst q <> IdStr "p1") ->
  price p1 = b64 10 ->
  exists order details,
    get_user_orders
      (store (ps1 ++ (IdStr "p1", p1) :: ps2)
             (os1 ++ (i, {| userId := "u1";
                            items := [ {| productId := "p1"; qty := 2 |} ] |})
                  :: os2))
      "u1" default_limit default_offset
    = Ok (envelope default_limit default_offset [order])
    /\ dict_get "id" order = Some (VStr (id_str i))
    /\ dict_get "total" order = Some (VDouble (b64 20))
    /\ dict_get "items" order
       = Some (VArr [VDoc [("productId", VStr "p1"); ("qty", VInt 2);
                           ("productDetails", VDoc details)]])
    /\ dict_get "id" details = Some (VStr "p1")
    /\ dict_get "price" details = Some (VDouble (b64 10))
    /\ dict_get "sizes" details = None
    /\ dict_get "_id" details = None.
Proof.
  intros Hos Hps Hprice.
  eexists. exists (details_out (IdStr "p1", p1)). split.
  - rewrite get_user_orders_refines
      by (unfold default_limit, default_offset, int64_max; lia).
    unfold user_groups.
    rewrite joined_rows_app, (joined_rows_cons _ _ os2), joined_rows_one.
    rewrite !joined_rows_other_users
      by (intros o Ho; apply Hos, in_or_app; auto).
    cbn [snd userId items header fst String.eqb Ascii.eqb Bool.eqb map app].
    rewrite inner_join_cons. cbn [snd fst].
    pose proof (@referenced_unique _ ps1 (IdStr "p1", p1) ps2
               {| productId := "p1"; qty := 2 |} eq_refl Hps) as Href.
    unfold StoredProduct in *. rewrite Href.
    cbn [map inner_join flat_map app].
    unfold group_rows, groups_of.
    cbn [map distinct_ids filter row_key row_order fst].
    rewrite arrange_ids_one. cbn [map filter row_key row_order fst].
    rewrite id_eqb_refl. cbn [window default_limit default_offset map].
    reflexivity.
  - cbn [order_out item_out details_out line_total map snd fst row_item
         row_product qty productId dict_get String.eqb Ascii.eqb Bool.eqb].
    unfold line_total, item_out, details_out.
    cbn [row_item row_product snd fst qty productId dict_get String.eqb
         Ascii.eqb Bool.eqb].
    rewrite Hprice. repeat split; reflexivity.
Qed.

End Scenarios.


(* ------------------------------------------------------------------ *)
(** ** The endpoints on the small store *)

Section SmallStore.
#[local] Existing Instance binary64.
Import Scenario.
#[local] Existing Instance plain_engine.

Ltac window_ok := unfold default_limit, default_offset, int64_max; lia.

(** C3 fails as stated: an order of ["u1"] whose only item names a product
    that does not exist is not in the response at all, neither with an empty
    item list nor with a total of 0, whatever the engine. *)
Lemma unmatched_order_is_not_emitted :
  (forall it, In it (items (snd (IdOid (Oid 5),
                                 {| userId := "u1"; items := [lost_item] |}))) ->
     forall p, In p [shirt; pants] -> fst p <> IdStr (productId it))
  /\ forall engine : Engine binary64,
     exists body,
       @get_user_orders binary64 engine
         (store [shirt; pants]
                [(IdOid (Oid 5), {| userId := "u1"; items := [lost_item] |})])
         "u1" default_limit default_offset = Ok body
       /\ data_of body = []
       /\ ~ (exists order, In order (data_of body)
                           /\ field "items" order = Some (VArr [])
                           /\ field "total" order = Some (VInt 0)).
Proof.
  split.
  - intros it [<-|[]] p [<-|[<-|[]]]; discriminate.
  - intros engine. exists (envelope default_limit default_offset []).
    split; [|split].
    + rewrite get_user_orders_refines by window_ok. unfold user_groups.
      replace (joined_rows [shirt; pants]
                 [(IdOid (Oid 5), {| userId := "u1"; items := [lost_item] |})]
                 "u1") with (@nil Row) by reflexivity.
      now rewrite group_rows_nil.
    + reflexivity.
    + intros (order & [] & _).
Qed.

(** C5 fails as stated: a limit of [2 ^ 63] is at least 1 and passes the
    validation, yet neither read endpoint answers with an envelope: the
    driver cannot encode the count and the handler ends in its
    OverflowError. *)
Lemma huge_limit_has_no_envelope :
  1 <= 2 ^ 63 /\ 0 <= 0
  /\ forall engine : Engine binary64,
       @get_user_orders binary64 engine (store [shirt; pants] [order1])
         "u1" (2 ^ 63) 0 = Raise OverflowError
       /\ @list_products binary64 engine (store [shirt; pants] [order1])
            None None (2 ^ 63) 0 = Raise OverflowError
       /\ ~ (exists body,
               @get_user_orders binary64 engine (store [shirt; pants] [order1])
                 "u1" (2 ^ 63) 0 = Ok body
               /\ page_of body "next" = Some (VInt (0 + 2 ^ 63)))
       /\ ~ (exists body,
               @list_products binary64 engine (store [shirt; pants] [order1])
                 None None (2 ^ 63) 0 = Ok body
               /\ page_of body "next" = Some (VInt (0 + 2 ^ 63))).
Proof.
  split; [lia|]. split; [lia|]. intros engine.
  assert (Horders : @get_user_orders binary64 engine
                      (store [shirt; pants] [order1]) "u1" (2 ^ 63) 0
                    = Raise OverflowError)
    by (apply get_user_orders_overflow; unfold int64_max; lia).
  assert (Hproducts : @list_products binary64 engine
                        (store [shirt; pants] [order1]) None None (2 ^ 63) 0
                      = Raise OverflowError)
    by (apply list_products_overflow; unfold int64_max; lia).
  split; [exact Horders|]. split; [exact Hproducts|]. split.
  - intros (body & Hbody & _). rewrite Horders in Hbody. discriminate.
  - intros (body & Hbody & _). rewrite Hproducts in Hbody. discriminate.
Qed.

(** C6 fails as stated: an offset of [2 ^ 63] is valid, and the response
    has no [data] array at all. *)
Lemma huge_offset_has_no_data :
  1 <= 10 /\ 0 <= 2 ^ 63
  /\ forall engine : Engine binary64,
       @get_user_orders binary64 engine (store [shirt; pants] [order1])
         "u1" 10 (2 ^ 63) = Raise OverflowError
       /\ ~ (exists body,
               @get_user_orders binary64 engine (store [shirt; pants] [order1])
                 "u1" 10 (2 ^ 63) = Ok body
               /\ len (data_of body) <= 10).
Proof.
  split; [lia|]. split; [lia|]. intros engine.
  assert (Horders : @get_user_orders binary64 engine
                      (store [shirt; pants] [order1]) "u1" 10 (2 ^ 63)
                    = Raise OverflowError)
    by (apply get_user_orders_overflow; unfold int64_max; lia).
  split; [exact Horders|].
  intros (body & Hbody & _). rewrite Horders in Hbody. discriminate.
Qed.

(** C8 fails as stated: user ["u3"] has no orders, and a request with the
    valid limit [2 ^ 63] is answered with an error, not with an empty
    [data] array. *)
Lemma no_orders_yet_an_error :
  (forall o, In o [order1; order2; order3] -> userId (snd o) <> "u3")
  /\ 1 <= 2 ^ 63 /\ 0 <= default_offset
  /\ forall engine : Engine binary64,
       @get_user_orders binary64 engine
         (store [shirt; pants] [order1; order2; order3]) "u3"
         (2 ^ 63) default_offset = Raise OverflowError
       /\ @get_user_orders binary64 engine
            (store [shirt; pants] [order1; order2; order3]) "u3"
            (2 ^ 63) default_offset
          <> Ok (envelope (2 ^ 63) default_offset []).
Proof.
  split; [intros o [<-|[<-|[<-|[]]]]; discriminate|].
  split; [lia|]. split; [window_ok|]. intros engine.
  assert (Horders : @get_user_orders binary64 engine
                      (store [shirt; pants] [order1; order2; order3]) "u3"
                      (2 ^ 63) default_offset = Raise OverflowError)
    by (apply get_user_orders_overflow; window_ok).
  split; [exact Horders|]. rewrite Horders. discriminate.
Qed.

(** *** Evaluations *)

Example re_escape_dot : re_escape "a.b c" = "a\.b\ c".
Proof. reflexivity. Qed.

(** An escaped dot is no wildcard: ["a.t"] does not match ["Pants"]. *)
Example escaped_dot_is_literal :
  list_products (store [shirt; pants] []) (Some "a.t") None 10 0
  = Ok (envelope 10 0 []).
Proof. reflexivity. Qed.

Example list_by_size :
  list_products (store [shirt; pants] []) None (Some "M") 10 0
  = Ok (envelope 10 0 [product_out shirt]).
Proof. reflexivity. Qed.

Example second_page_of_products :
  list_products (store [shirt; pants] []) None None 1 1
  = Ok [("data", VArr [VDoc [("name", VStr "Pants"); ("price", VDouble (b64 7));
                             ("id", VStr "0000000000000000000000ff")]]);
        ("page", VDoc [("next", VInt 2); ("limit", VInt 1);
                       ("previous", VInt 0)])].
Proof. reflexivity. Qed.

Example orders_of_u1 :
  get_user_orders (store [shirt; pants] [order1; order2; mixed_order]) "u1" 10 0
  = Ok (envelope 10 0
          [ [("items", VArr [VDoc [("productId", VStr "p1"); ("qty", VInt 2);
                                   ("productDetails", VDoc (product_out shirt))]]);
             ("total", VDouble (b64 20));
             ("id", VStr "000000000000000000000001")];
            [("items", VArr [VDoc [("productId", VStr "p1"); ("qty", VInt 2);
                                   ("productDetails", VDoc (product_out shirt))]]);
             ("total", VDouble (b64 20));
             ("id", VStr "000000000000000000000004")] ]).
Proof. reflexivity. Qed.

(** The same request on an engine that emits the groups the other way
    round: the same two orders, in the other order. *)
Example orders_of_u1_reversed :
  @get_user_orders binary64 reversing_engine
    (store [shirt; pants] [order1; order2; mixed_order]) "u1" 10 0
  = Ok (envelope 10 0
          [ [("items", VArr [VDoc [("productId", VStr "p1"); ("qty", VInt 2);
                                   ("productDetails", VDoc (product_out shirt))]]);
             ("total", VDouble (b64 20));
             ("id", VStr "000000000000000000000004")];
            [("items", VArr [VDoc [("productId", VStr "p1"); ("qty", VInt 2);
                                   ("productDetails", VDoc (product_out shirt))]]);
             ("total", VDouble (b64 20));
             ("id", VStr "000000000000000000000001")] ]).
Proof. reflexivity. Qed.

(** Capitals with an accent find the small letters on an engine that
    folds them, and not on one that folds A to Z alone. *)
Example accented_name_is_found :
  @list_products binary64 latin_engine (store [shirt; creme] [])
    (Some "CRÈME") None 10 0
  = Ok (envelope 10 0 [product_out creme])
  /\ @list_products binary64 plain_engine (store [shirt; creme] [])
       (Some "CRÈME") None 10 0
     = Ok (envelope 10 0 []).
Proof. split; reflexivity. Qed.

Example window_is_validated :
  get_user_orders (store [shirt] [order1]) "u1" 0 0 = Raise RequestValidationError
  /\ list_products (store [shirt] [order1]) None None 10 (-1)
     = Raise RequestValidationError.
Proof. split; reflexivity. Qed.

(** The largest count the driver encodes, and the first it does not. *)
Example window_at_the_bound :
  list_products (store [shirt; pants] []) None None int64_max 1
  = Ok (envelope int64_max 1 [product_out pants])
  /\ list_products (store [shirt; pants] []) None None (int64_max + 1) 1
     = Raise OverflowError
  /\ get_user_orders (store [shirt] [order1]) "u1" 10 (int64_max + 1)
     = Raise OverflowError.
Proof. repeat split; reflexivity. Qed.

(** A product posted through the API and an order naming the identifier
    the API returned for it: the join finds nothing. *)
Example posted_order_finds_no_product :
  get_user_orders posted_db "u1" 10 0 = Ok (envelope 10 0 []).
Proof. reflexivity. Qed.

(** *** The theorems at the small store *)

Lemma lost_item_unmatched :
  forall p, In p [shirt; pants] -> fst p <> IdStr (productId lost_item).
Proof. intros p [<-|[<-|[]]]; discriminate. Defined.

Lemma unmatched_row_discarded_witness :
  1 <= default_limit <= int64_max /\ 0 <= default_offset <= int64_max
  /\ (forall p, In p [shirt; pants] -> fst p <> IdStr (productId lost_item))
  /\ get_user_orders
       (store [shirt; pants]
          ([order2] ++ (IdOid (Oid 4),
                        {| userId := "u1";
                           items := [two_shirts] ++ lost_item :: [] |})
                    :: [order3]))
       "u1" default_limit default_offset
     = get_user_orders
         (store [shirt; pants]
            ([order2] ++ (IdOid (Oid 4),
                          {| userId := "u1"; items := [two_shirts] ++ [] |})
                      :: [order3]))
         "u1" default_limit default_offset
  /\ exists body,
       get_user_orders
         (store [shirt; pants]
            ([order2] ++ (IdOid (Oid 4),
                          {| userId := "u1";
                             items := [two_shirts] ++ lost_item :: [] |})
                      :: [order3]))
         "u1" default_limit default_offset = Ok body
       /\ get_user_orders
            (store [shirt; pants]
               ([order2] ++ (IdOid (Oid 4),
                             {| userId := "u1"; items := [two_shirts] ++ [] |})
                         :: [order3]))
            "u1" default_limit default_offset = Ok body
       /\ forall order item,
            In order (data_of body) -> In item (items_of order) ->
            field "productId" item <> Some (VStr (productId lost_item)).
Proof.
  split; [window_ok|]. split; [window_ok|]. split; [exact lost_item_unmatched|].
  destruct (@unmatched_row_discarded binary64 plain_engine [shirt; pants]
              [order2] [order3] (IdOid (Oid 4)) "u1" [two_shirts] lost_item []
              "u1" default_limit default_offset lost_item_unmatched)
    as [Hsame Hbody].
  split; [exact Hsame|]. apply Hbody; window_ok.
Defined.


Lemma order2_unmatched :
  forall it p, In it (items (snd order2)) -> In p [shirt; pants] ->
    fst p <> IdStr (productId it).
Proof. intros it p [<-|[]] [<-|[<-|[]]]; discriminate. Defined.

Lemma order_without_match_is_absent_witness :
  1 <= default_limit <= int64_max /\ 0 <= default_offset <= int64_max
  /\ (forall it p, In it (items (snd order2)) -> In p [shirt; pants] ->
        fst p <> IdStr (productId it))
  /\ get_user_orders (store [shirt; pants] ([order1] ++ order2 :: [order3]))
                     "u2" default_limit default_offset
     = get_user_orders (store [shirt; pants] ([order1] ++ [order3]))
                       "u2" default_limit default_offset
  /\ exists body,
       get_user_orders (store [shirt; pants] ([order1] ++ order2 :: [order3]))
                       "u2" default_limit default_offset = Ok body
       /\ get_user_orders (store [shirt; pants] ([order1] ++ [order3]))
                          "u2" default_limit default_offset = Ok body.
Proof.
  split; [window_ok|]. split; [window_ok|]. split; [exact order2_unmatched|].
  destruct (@order_without_match_is_absent binary64 plain_engine
              [shirt; pants] [order1] order2 [order3] "u2"
              default_limit default_offset order2_unmatched)
    as [Hsame Hbody].
  split; [exact Hsame|]. apply Hbody; window_ok.
Defined.

(** The order with two items gives two rows, between those of the orders
    stored before and after it; the order without items gives none. *)
Lemma unwind_one_row_per_item_witness :
  userId (snd mixed_order) = "u1"
  /\ (exists before after,
        run_stages
          (firstn 2 (orders_pipeline
                       (store [shirt] ([order1] ++ mixed_order :: [order2]))
                       "u1" default_limit default_offset))
          (orders_collection
             (store [shirt] ([order1] ++ mixed_order :: [order2])))
        = Ok (before
              ++ [item_row (header mixed_order, two_shirts);
                  item_row (header mixed_order, lost_item)]
              ++ after)
        /\ run_stages
             (firstn 2 (orders_pipeline (store [shirt] ([order1] ++ [order2]))
                                        "u1" default_limit default_offset))
             (orders_collection (store [shirt] ([order1] ++ [order2])))
           = Ok (before ++ after)
        /\ List.length [item_row (header mixed_order, two_shirts);
                        item_row (header mixed_order, lost_item)]
           = List.length (items (snd mixed_order))).
Proof.
  split; [reflexivity|].
  exact (proj1 (proj2 (proj2
           (@unwind_one_row_per_item binary64 plain_engine [shirt] [order1]
              mixed_order [order2] "u1" default_limit default_offset)))
         eq_refl).
Defined.

Lemma pagination_envelope_witness :
  1 <= 1 <= int64_max /\ 0 <= 1 <= int64_max
  /\ (exists body,
        get_user_orders (store [shirt; pants] [order1; mixed_order]) "u1" 1 1
        = Ok body
        /\ page_of body "next" = Some (VInt (1 + 1))
        /\ page_of body "previous" = Some (VInt (Z.max 0 (1 - 1)))
        /\ page_of body "limit" = Some (VInt (len (data_of body))))
  /\ (exists body,
        list_products (store [shirt; pants] [order1; mixed_order])
                      None None 1 1 = Ok body
        /\ page_of body "next" = Some (VInt (1 + 1))
        /\ page_of body "previous" = Some (VInt (Z.max 0 (1 - 1)))
        /\ page_of body "limit" = Some (VInt (len (data_of body)))).
Proof.
  split; [window_ok|]. split; [window_ok|].
  apply (@pagination_envelope binary64 plain_engine [shirt; pants]
           [order1; mixed_order] "u1" None None 1 1); window_ok.
Defined.

(** Both pages of that request hold one entry. *)
Example pages_of_one_entry :
  get_user_orders (store [shirt; pants] [order1; mixed_order]) "u1" 1 1
  = Ok [("data",
         VArr [VDoc [("items",
                      VArr [VDoc [("productId", VStr "p1"); ("qty", VInt 2);
                                  ("productDetails", VDoc (product_out shirt))]]);
                     ("total", VDouble (b64 20));
                     ("id", VStr "000000000000000000000004")]]);
        ("page", VDoc [("next", VInt 2); ("limit", VInt 1);
                       ("previous", VInt 0)])]
  /\ list_products (store [shirt; pants] [order1; mixed_order]) None None 1 1
     = Ok [("data", VArr [VDoc (product_out pants)]);
           ("page", VDoc [("next", VInt 2); ("limit", VInt 1);
                          ("previous", VInt 0)])].
Proof. split; reflexivity. Qed.

Lemma data_within_limit_witness :
  1 <= 1 <= int64_max /\ 0 <= 1 <= int64_max
  /\ exists body groups,
       get_user_orders (store [shirt; pants] [order1; order2; mixed_order])
                       "u1" 1 1 = Ok body
       /\ Permutation groups
            (first_groups (joined_rows [shirt; pants]
                                       [order1; order2; mixed_order] "u1"))
       /\ data_of body
          = map (fun g => VDoc (order_out g))
                (firstn (Z.to_nat 1) (skipn (Z.to_nat 1) groups))
       /\ len (data_of body)
          = Z.min 1
              (Z.max 0
                 (len (first_groups
                         (joined_rows [shirt; pants]
                                      [order1; order2; mixed_order] "u1")) - 1))
       /\ len (data_of body) <= 1.
Proof.
  split; [window_ok|]. split; [window_ok|].
  apply (@data_within_limit binary64 plain_engine [shirt; pants]
           [order1; order2; mixed_order] "u1" 1 1); window_ok.
Defined.

Lemma name_filter_is_caseless_substring_witness :
  1 <= default_limit <= int64_max /\ 0 <= default_offset <= int64_max
  /\ (exists sel : StoredProduct -> bool,
        (forall p, sel p = true <-> contains_caseless "shirt" (name (snd p)))
        /\ (forall p, casefold (name (snd p)) = casefold "shirt" -> sel p = true)
        /\ list_products (store [shirt; pants] [order1]) (Some "shirt") None
                         default_limit default_offset
           = Ok (envelope default_limit default_offset
                   (map product_out
                        (window default_limit default_offset
                                (filter sel [shirt; pants])))))
  /\ forall (i1 i2 i3 : Id) (x1 x2 x3 : num) (s1 s2 s3 : list Size),
       let red_shirt := (i1, {| name := "Red Shirt"; price := x1; sizes := s1 |}) in
       let pants' := (i2, {| name := "Pants"; price := x2; sizes := s2 |}) in
       let style := (i3, {| name := "shirt-style-2"; price := x3; sizes := s3 |}) in
       list_products (store [red_shirt; pants'; style] [order1]) (Some "shirt")
                     None default_limit default_offset
       = Ok (envelope default_limit default_offset
               [product_out red_shirt; product_out style]).
Proof.
  split; [window_ok|]. split; [window_ok|].
  apply (@name_filter_is_caseless_substring binary64 plain_engine
           [shirt; pants] [order1] "shirt" default_limit default_offset);
    window_ok.
Defined.

Lemma nobody_is_u3 :
  forall o, In o [order1; order2; order3] -> userId (snd o) <> "u3".
Proof. intros o [<-|[<-|[<-|[]]]]; discriminate. Defined.

Lemma no_orders_empty_data_witness :
  1 <= default_limit <= int64_max /\ 0 <= default_offset <= int64_max
  /\ (forall o, In o [order1; order2; order3] -> userId (snd o) <> "u3")
  /\ get_user_orders (store [shirt; pants] [order1; order2; order3]) "u3"
                     default_limit default_offset
     = Ok (envelope default_limit default_offset [])
  /\ data_of (envelope default_limit default_offset []) = [].
Proof.
  split; [window_ok|]. split; [window_ok|]. split; [exact nobody_is_u3|].
  apply (@no_orders_empty_data binary64 plain_engine [shirt; pants]
           [order1; order2; order3] "u3" default_limit default_offset);
    [window_ok | window_ok | exact nobody_is_u3].
Defined.

Lemma others_are_not_u1 :
  forall o, In o ([order2] ++ [order3]) -> userId (snd o) <> "u1".
Proof. intros o [<-|[<-|[]]]; discriminate. Defined.

Lemma others_are_not_p1 :
  forall q, In q ([pants] ++ []) -> fst q <> IdStr "p1".
Proof. intros q [<-|[]]; discriminate. Defined.

Lemma scenario_one_order_one_product_witness :
  (forall o, In o ([order2] ++ [order3]) -> userId (snd o) <> "u1")
  /\ (forall q, In q ([pants] ++ []) -> fst q <> IdStr "p1")
  /\ price (snd shirt) = b64 10
  /\ exists order details,
       get_user_orders
         (store ([pants] ++ (IdStr "p1", snd shirt) :: [])
                ([order2] ++ (IdOid (Oid 1),
                              {| userId := "u1";
                                 items := [ {| productId := "p1"; qty := 2 |} ] |})
                          :: [order3]))
         "u1" default_limit default_offset
       = Ok (envelope default_limit default_offset [order])
       /\ dict_get "id" order = Some (VStr (id_str (IdOid (Oid 1))))
       /\ dict_get "total" order = Some (VDouble (b64 20))
       /\ dict_get "items" order
          = Some (VArr [VDoc [("productId", VStr "p1"); ("qty", VInt 2);
                              ("productDetails", VDoc details)]])
       /\ dict_get "id" details = Some (VStr "p1")
       /\ dict_get "price" details = Some (VDouble (b64 10))
       /\ dict_get "sizes" details = None
       /\ dict_get "_id" details = None.
Proof.
  split; [exact others_are_not_u1|]. split; [exact others_are_not_p1|].
  split; [reflexivity|].
  apply (@scenario_one_order_one_product plain_engine [pants] [] [order2]
           [order3] (IdOid (Oid 1)) (snd shirt));
    [exact others_are_not_u1 | exact others_are_not_p1 | reflexivity].
Defined.

Lemma posted_db_reachable : api_reachable posted_db.
Proof.
  unfold posted_db.
  apply reach_create_order, reach_create_product, reach_empty.
Defined.

Lemma api_built_store_joins_nothing_witness :
  api_reachable posted_db
  /\ 1 <= default_limit <= int64_max /\ 0 <= default_offset <= int64_max
  /\ (forall s o, value_eqb (VStr s) (VOid o) = false
                  /\ value_eqb (VOid o) (VStr s) = false)
  /\ (exists ps os,
        posted_db = store ps os
        /\ (forall p, In p ps -> exists o, fst p = IdOid o)
        /\ (forall it, referenced ps it = [])
        /\ joined_rows ps os "u1" = [])
  /\ get_user_orders posted_db "u1" default_limit default_offset
     = Ok (envelope default_limit default_offset [])
  /\ (forall body,
        get_user_orders posted_db "u1" default_limit default_offset = Ok body ->
        data_of body = []).
Proof.
  split; [exact posted_db_reachable|]. split; [window_ok|]. split; [window_ok|].
  destruct (@api_built_store_joins_nothing binary64 plain_engine posted_db "u1"
              default_limit default_offset posted_db_reachable)
    as (Hne & Hstore & Hok & Hdata).
  split; [exact Hne|]. split; [exact Hstore|].
  split; [apply Hok; window_ok | exact Hdata].
Defined.

End SmallStore.

(* ------------------------------------------------------------------ *)
(** ** Further lemmas: groups, windows and dicts *)

Section MoreLemmas.
Context {A : Arith} {Eng : Engine A}.

Lemma id_eqb_sym i j : id_eqb i j = id_eqb j i.
Proof.
  destruct i as [[a]|s], j as [[b]|t]; simpl; try reflexivity.
  - apply N.eqb_sym.
  - apply String.eqb_sym.
Qed.

Lemma id_eqb_neq i j : id_eqb i j = false <-> i <> j.
Proof.
  split.
  - intros E H. apply id_eqb_eq in H. congruence.
  - intros H. destruct (id_eqb i j) eqn:E; [|reflexivity].
    apply id_eqb_eq in E. contradiction.
Qed.

Lemma filter_swap {T} (f g : T -> bool) (l : list T) :
  filter f (filter g l) = filter g (filter f l).
Proof.
  induction l as [|x l IH]; simpl.
  - reflexivity.
  - destruct (g x) eqn:Eg, (f x) eqn:Ef; simpl; rewrite ?Eg, ?Ef, IH; reflexivity.
Qed.

Lemma filter_twice {T} (f : T -> bool) (l : list T) :
  filter f (filter f l) = filter f l.
Proof.
  induction l as [|x l IH]; simpl.
  - reflexivity.
  - destruct (f x) eqn:Ef; simpl; rewrite ?Ef, IH; reflexivity.
Qed.

Lemma filter_all {T} (f : T -> bool) (l : list T) :
  (forall x, In x l -> f x = true) -> filter f l = l.
Proof.
  induction l as [|x l IH]; intros H; simpl.
  - reflexivity.
  - rewrite (H x (or_introl eq_refl)), IH; [reflexivity|].
    intros y Hy. apply H. now right.
Qed.

Lemma filter_none {T} (f : T -> bool) (l : list T) :
  (forall x, In x l -> f x = false) -> filter f l = [].
Proof.
  induction l as [|x l IH]; intros H; simpl.
  - reflexivity.
  - rewrite (H x (or_introl eq_refl)). apply IH.
    intros y Hy. apply H. now right.
Qed.

Lemma distinct_ids_filter k l :
  filter (fun j => negb (id_eqb k j)) (distinct_ids l)
  = distinct_ids (filter (fun j => negb (id_eqb k j)) l).
Proof.
  induction l as [|i l IH]; simpl.
  - reflexivity.
  - destruct (id_eqb k i) eqn:E; simpl.
    + apply id_eqb_eq in E. subst i. now rewrite filter_twice.
    + now rewrite filter_swap, IH.
Qed.

(** The rows of one key in front of rows of other keys make the first
    group. *)
Lemma first_groups_block k (rows1 rows2 : list Row) :
  rows1 <> [] ->
  (forall r, In r rows1 -> row_key r = k) ->
  (forall r, In r rows2 -> row_key r <> k) ->
  first_groups (rows1 ++ rows2) = (k, rows1) :: first_groups rows2.
Proof.
  intros Hne H1 H2. destruct rows1 as [|r1 rows1]; [congruence|].
  assert (Hk1 : filter (fun r => id_eqb k (row_key r)) ((r1 :: rows1) ++ rows2)
                = r1 :: rows1).
  { rewrite filter_app, filter_all, filter_none, app_nil_r; [reflexivity| |].
    - intros r Hr. apply id_eqb_neq. intros E. now apply (H2 r Hr).
    - intros r Hr. apply id_eqb_eq. symmetry. now apply H1. }
  assert (Hkeys : filter (fun j => negb (id_eqb k j))
                         (map row_key (rows1 ++ rows2))
                  = map row_key rows2).
  { rewrite map_app, filter_app, filter_none, filter_all; [reflexivity| |].
    - intros j Hj. apply in_map_iff in Hj. destruct Hj as (r & <- & Hr).
      apply negb_true_iff, id_eqb_neq. intros E. now apply (H2 r Hr).
    - intros j Hj. apply in_map_iff in Hj. destruct Hj as (r & <- & Hr).
      apply negb_false_iff, id_eqb_eq. symmetry. apply H1. now right. }
  unfold first_groups, groups_of. cbn [app map distinct_ids].
  rewrite (H1 r1 (or_introl eq_refl)).
  rewrite distinct_ids_filter, Hkeys. cbn [map]. f_equal.
  - f_equal. exact Hk1.
  - apply map_ext_in. intros k' Hk'. f_equal.
    apply distinct_ids_incl, in_map_iff in Hk'. destruct Hk' as (r & <- & Hr).
    change (r1 :: rows1 ++ rows2) with ((r1 :: rows1) ++ rows2).
    rewrite filter_app, filter_none; [reflexivity|].
    intros r' Hr'. apply id_eqb_neq. rewrite (H1 r' Hr').
    intros E. now apply (H2 r Hr).
Qed.

Lemma joined_rows_flat ps os u :
  joined_rows ps os u = flat_map (rows_of ps) (select_orders u os).
Proof.
  unfold joined_rows, rows_of.
  induction (select_orders u os) as [|o sel IH]; simpl.
  - reflexivity.
  - now rewrite inner_join_app, IH.
Qed.

Lemma rows_of_key ps o r : In r (rows_of ps o) -> row_order r = header o.
Proof.
  unfold rows_of. intros H. apply inner_join_matched in H.
  destruct H as (_ & _ & H). apply in_map_iff in H.
  destruct H as (it & E & _). now inversion E.
Qed.

Lemma first_groups_orders ps (sel : list StoredOrder) :
  NoDup (map fst sel) ->
  first_groups (flat_map (rows_of ps) sel) = flat_map (order_group ps) sel.
Proof.
  induction sel as [|o sel IH]; intros Hnd.
  - reflexivity.
  - inversion Hnd as [|i ids Hnotin Hnd' E]; subst. cbn [flat_map].
    unfold order_group at 1. destruct (rows_of ps o) as [|r rs] eqn:Hrows.
    + now apply IH.
    + rewrite <- IH by assumption. apply first_groups_block.
      * discriminate.
      * intros r' Hr'. unfold row_key.
        rewrite (@rows_of_key ps o r') by (rewrite Hrows; exact Hr').
        reflexivity.
      * intros r' Hr' E. apply in_flat_map in Hr'.
        destruct Hr' as (o' & Ho' & Hr'). apply rows_of_key in Hr'.
        unfold row_key in E. rewrite Hr' in E. cbn in E.
        apply Hnotin. rewrite <- E. now apply in_map.
Qed.

(** *** Page windows *)

Lemma firstn_plus {T} (n m : nat) (l : list T) :
  firstn (n + m) l = firstn n l ++ firstn m (skipn n l).
Proof.
  revert l. induction n as [|n IH]; intros l.
  - reflexivity.
  - destruct l as [|x l]; simpl.
    + now rewrite firstn_nil.
    + now rewrite IH.
Qed.

Lemma skipn_plus {T} (n m : nat) (l : list T) :
  skipn (n + m) l = skipn m (skipn n l).
Proof.
  revert l. induction n as [|n IH]; intros l.
  - reflexivity.
  - destruct l as [|x l]; simpl.
    + now rewrite skipn_nil.
    + apply IH.
Qed.

Lemma window_tile {T} limit offset (l : list T) :
  0 <= limit -> 0 <= offset ->
  window limit offset l ++ window limit (offset + limit) l
  = window (2 * limit) offset l.
Proof.
  intros Hl Ho. unfold window.
  rewrite (Z2Nat.inj_add offset limit) by assumption.
  replace (Z.to_nat (2 * limit)) with (Z.to_nat limit + Z.to_nat limit)%nat by lia.
  now rewrite skipn_plus, firstn_plus.
Qed.

Lemma window_past_end {T} limit offset (l : list T) :
  len l <= offset -> window limit offset l = [].
Proof.
  unfold len, window. intros H.
  rewrite skipn_all2 by lia. apply firstn_nil.
Qed.

Lemma window_whole {T} limit (l : list T) :
  len l <= limit -> window limit 0 l = l.
Proof.
  unfold len, window. intros H. cbn [Z.to_nat skipn].
  apply firstn_all2. lia.
Qed.

Lemma NoDup_distinct_ids l : NoDup (distinct_ids l).
Proof.
  induction l as [|i l IH]; simpl; constructor.
  - rewrite filter_In. intros [_ H]. now rewrite id_eqb_refl in H.
  - now apply NoDup_filter.
Qed.

(** With distinct order identifiers the groups of a user are, in some
    order, the groups of the user's orders. *)
Lemma user_groups_orders ps os u :
  NoDup (map fst os) ->
  Permutation (user_groups ps os u)
              (flat_map (order_group ps) (select_orders u os)).
Proof.
  intros Hnd. unfold user_groups.
  rewrite <- first_groups_orders, <- joined_rows_flat.
  - apply group_rows_perm.
  - unfold select_orders. clear -Hnd.
    induction os as [|x l IH]; simpl.
    + constructor.
    + inversion Hnd as [|i ids Hnotin Hnd' E]; subst.
      destruct (String.eqb (userId (snd x)) u); [|now apply IH]. simpl.
      constructor; [|now apply IH].
      intros Hin. apply Hnotin. apply in_map_iff in Hin.
      destruct Hin as (y & Hy & Hin). apply filter_In in Hin.
      rewrite <- Hy. apply in_map. tauto.
Qed.

Lemma user_groups_count ps os u :
  len (user_groups ps os u) <= len (select_orders u os).
Proof.
  unfold len, user_groups.
  rewrite (Permutation_length (group_rows_perm (joined_rows ps os u))).
  unfold first_groups, groups_of. rewrite length_map.
  apply inj_le.
  apply Nat.le_trans with (List.length (map fst (select_orders u os)));
    [|rewrite length_map; apply le_n].
  apply NoDup_incl_length; [apply NoDup_distinct_ids|].
  intros k Hk. apply distinct_ids_incl, in_map_iff in Hk.
  destruct Hk as (r & <- & Hr). rewrite joined_rows_flat in Hr.
  apply in_flat_map in Hr. destruct Hr as (o & Ho & Hr).
  apply rows_of_key in Hr. unfold row_key. rewrite Hr.
  change (fst (header o)) with (fst o). now apply in_map.
Qed.

(** *** Dicts *)

Lemma dict_get_set_same k v (d : doc) : dict_get k (dict_set k v d) = Some v.
Proof.
  induction d as [|[k' v'] d IH]; simpl.
  - now rewrite String.eqb_refl.
  - destruct (String.eqb k k') eqn:E; simpl; rewrite E; [reflexivity | exact IH].
Qed.

Lemma dict_get_set_other k k' v (d : doc) :
  k <> k' -> dict_get k' (dict_set k v d) = dict_get k' d.
Proof.
  intros Hne. induction d as [|[k0 v0] d IH]; simpl.
  - destruct (String.eqb_spec k' k); [congruence | reflexivity].
  - destruct (String.eqb_spec k k0) as [->|Hk]; simpl.
    + destruct (String.eqb_spec k' k0); [congruence | reflexivity].
    + now rewrite IH.
Qed.

Lemma dict_get_remove_other k k' (d : doc) :
  k <> k' -> dict_get k' (dict_remove k d) = dict_get k' d.
Proof.
  intros Hne. induction d as [|[k0 v0] d IH]; simpl.
  - reflexivity.
  - destruct (String.eqb_spec k k0) as [->|Hk]; simpl.
    + destruct (String.eqb_spec k' k0); [congruence | reflexivity].
    + now rewrite IH.
Qed.

Lemma dict_get_absent k (d : doc) :
  ~ In k (map fst d) -> dict_get k d = None.
Proof.
  induction d as [|[k0 v0] d IH]; simpl; intros H.
  - reflexivity.
  - destruct (String.eqb_spec k k0) as [->|_]; [tauto|]. apply IH. tauto.
Qed.

Lemma dict_get_remove_same k (d : doc) :
  NoDup (map fst d) -> dict_get k (dict_remove k d) = None.
Proof.
  induction d as [|[k0 v0] d IH]; simpl; intros Hnd.
  - reflexivity.
  - inversion Hnd as [|x xs Hnotin Hnd' E]; subst.
    destruct (String.eqb_spec k k0) as [->|Hk]; simpl.
    + now apply dict_get_absent.
    + destruct (String.eqb_spec k k0); [congruence|]. now apply IH.
Qed.

(** *** The rendering of ObjectIds *)

Lemma hex_digit_inj a b :
  (a < 16)%N -> (b < 16)%N -> hex_digit a = hex_digit b -> a = b.
Proof.
  intros Ha Hb. unfold hex_digit. intros H.
  apply N2Nat.inj.
  assert (Ha' : (N.to_nat a < 16)%nat) by lia.
  assert (Hb' : (N.to_nat b < 16)%nat) by lia.
  revert H Ha' Hb'. generalize (N.to_nat a) (N.to_nat b). intros x y H Hx Hy.
  do 16 (destruct x as [|x];
         [do 16 (destruct y as [|y]; [first [reflexivity | discriminate H]|]); lia|]).
  lia.
Qed.

Lemma hex_digits_inj w : forall n m acc acc',
  hex_digits w n acc = hex_digits w m acc' ->
  (n mod 16 ^ N.of_nat w = m mod 16 ^ N.of_nat w)%N /\ acc = acc'.
Proof.
  induction w as [|w IH]; intros n m acc acc' H.
  - cbn in H. split; [now rewrite !N.mod_1_r | exact H].
  - cbn [hex_digits] in H. apply IH in H. destruct H as [Hhi Hacc].
    injection Hacc as Hd Hacc. split; [|exact Hacc].
    apply hex_digit_inj in Hd; try (apply N.mod_lt; discriminate).
    rewrite Nat2N.inj_succ, N.pow_succ_r'.
    rewrite !N.Div0.mod_mul_r. now rewrite Hd, Hhi.
Qed.

Lemma hex_digits_length w : forall n acc,
  String.length (hex_digits w n acc) = (w + String.length acc)%nat.
Proof.
  induction w as [|w IH]; intros n acc.
  - reflexivity.
  - cbn [hex_digits]. rewrite IH. simpl. lia.
Qed.

Lemma oid_str_inj o o' :
  oid_in_range o -> oid_in_range o' -> oid_str o = oid_str o' -> o = o'.
Proof.
  destruct o as [n], o' as [m]. unfold oid_in_range, oid_str. intros Hn Hm H.
  apply hex_digits_inj in H. destruct H as [H _].
  change (16 ^ N.of_nat 24)%N with (2 ^ 96)%N in H.
  rewrite !N.mod_small in H by assumption. now subst.
Qed.

(** *** Writes, seen on stores of the data model *)

Lemma referenced_snoc_oid ps o (p : Product) it :
  referenced (ps ++ [(IdOid o, p)]) it = referenced ps it.
Proof.
  unfold referenced. rewrite filter_app. cbn [filter fst].
  destruct o as [n]. cbn [id_eqb]. apply app_nil_r.
Qed.

Lemma inner_join_snoc_oid ps o (p : Product) rows :
  inner_join (ps ++ [(IdOid o, p)]) rows = inner_join ps rows.
Proof.
  unfold inner_join. apply flat_map_ext. intros r.
  now rewrite referenced_snoc_oid.
Qed.

Lemma NoDup_fst_filter {T} (f : Id * T -> bool) (l : list (Id * T)) :
  NoDup (map fst l) -> NoDup (map fst (filter f l)).
Proof.
  induction l as [|x l IH]; simpl; intros H.
  - constructor.
  - inversion H as [|i ids Hnotin Hnd E]; subst.
    destruct (f x); [|now apply IH]. simpl. constructor; [|now apply IH].
    intros Hin. apply Hnotin. apply in_map_iff in Hin.
    destruct Hin as (y & Hy & Hin). apply filter_In in Hin.
    rewrite <- Hy. apply in_map. tauto.
Qed.

Lemma rows_of_empty ps o :
  rows_of ps o = []
  <-> (forall it p, In it (items (snd o)) -> In p ps ->
         fst p <> IdStr (productId it)).
Proof.
  unfold rows_of. split.
  - intros Hnil it p Hit Hp E.
    assert (Hin : In (Build_Row (header o) it p)
                     (inner_join ps (map (pair (header o)) (items (snd o))))).
    { unfold inner_join. apply in_flat_map. exists (header o, it). split.
      - now apply in_map.
      - cbn [fst snd]. apply in_map. unfold referenced. apply filter_In.
        split; [exact Hp|]. now apply id_eqb_eq. }
    rewrite Hnil in Hin. exact Hin.
  - intros H. apply inner_join_unmatched. intros it Hit.
    apply referenced_none. intros p Hp. now apply (H it p).
Qed.

Lemma order_group_empty ps o :
  order_group ps o = [] <-> rows_of ps o = [].
Proof.
  unfold order_group. destruct (rows_of ps o); split; congruence.
Qed.

Lemma dict_remove_keys k (d : doc) x :
  In x (map fst (dict_remove k d)) -> In x (map fst d).
Proof.
  induction d as [|[k0 v0] d IH]; simpl.
  - auto.
  - destruct (String.eqb k k0); simpl; tauto.
Qed.

Lemma NoDup_dict_remove k (d : doc) :
  NoDup (map fst d) -> NoDup (map fst (dict_remove k d)).
Proof.
  induction d as [|[k0 v0] d IH]; simpl; intros H.
  - constructor.
  - inversion H as [|x xs Hnotin Hnd E]; subst.
    destruct (String.eqb k k0); simpl; [exact Hnd|].
    constructor; [|now apply IH].
    intros Hin. apply Hnotin. now apply dict_remove_keys in Hin.
Qed.

Lemma dict_set_keys k v (d : doc) x :
  In x (map fst (dict_set k v d)) -> x = k \/ In x (map fst d).
Proof.
  induction d as [|[k0 v0] d IH]; simpl.
  - intros [<-|[]]. now left.
  - destruct (String.eqb k k0); simpl; intros [H|H]; auto.
    destruct (IH H); auto.
Qed.

Lemma NoDup_dict_set k v (d : doc) :
  NoDup (map fst d) -> NoDup (map fst (dict_set k v d)).
Proof.
  induction d as [|[k0 v0] d IH]; simpl; intros H.
  - repeat constructor. auto.
  - inversion H as [|x xs Hnotin Hnd E]; subst.
    destruct (String.eqb_spec k k0) as [->|Hk]; simpl.
    + now constructor.
    + constructor; [|now apply IH].
      intros Hin. apply dict_set_keys in Hin. destruct Hin; congruence.
Qed.

(** *** The filters of [list_products] *)

Lemma contains_caseless_empty subject : contains_caseless EmptyString subject.
Proof.
  exists EmptyString, (casefold subject).
  now rewrite (casefold_ascii EmptyString eq_refl).
Qed.

Lemma name_selected_spec name_q (p : StoredProduct) :
  name_selected name_q p = true
  <-> (forall n, name_q = Some n -> contains_caseless n (name (snd p))).
Proof.
  unfold name_selected. destruct name_q as [[|c n]|]; cbn [truthy].
  - split; [|reflexivity]. intros _ n E. injection E as <-.
    apply contains_caseless_empty.
  - rewrite match_anywhere_spec. split.
    + intros H n' E. now injection E as <-.
    + intros H. now apply H.
  - split; [discriminate | reflexivity].
Qed.

Lemma size_selected_spec size_q (p : StoredProduct) :
  size_selected size_q p = true
  <-> (forall sz, size_q = Some sz -> sz <> EmptyString ->
         exists s, In s (sizes (snd p)) /\ size s = sz).
Proof.
  unfold size_selected. destruct size_q as [[|c sz]|]; cbn [truthy].
  - split; [|reflexivity]. intros _ sz E Hne. injection E as <-. congruence.
  - rewrite existsb_exists. split.
    + intros (s & Hs & E) sz' E' _. injection E' as <-.
      apply String.eqb_eq in E. now exists s.
    + intros H. destruct (H _ eq_refl) as (s & Hs & E); [discriminate|].
      exists s. split; [exact Hs | now apply String.eqb_eq].
  - split; [discriminate | reflexivity].
Qed.

Lemma In_flatten os h it :
  In (h, it) (flatten os)
  <-> exists o, In o os /\ header o = h /\ In it (items (snd o)).
Proof.
  unfold flatten. rewrite in_flat_map. split.
  - intros (o & Ho & Hin). apply in_map_iff in Hin.
    destruct Hin as (it' & E & Hit). injection E as <- <-. now exists o.
  - intros (o & Ho & <- & Hit). exists o. split; [exact Ho|].
    now apply in_map.
Qed.

End MoreLemmas.


(* ------------------------------------------------------------------ *)
(** ** Further properties of the endpoints *)

Section MoreProperties.
Context {A : Arith} {Eng : Engine A}.

(** *** Rendering *)

Lemma forallb_map {T U} (f : U -> bool) (g : T -> U) (l : list T) :
  forallb f (map g l) = forallb (fun x => f (g x)) l.
Proof.
  induction l as [|x l IH]; [reflexivity|]. cbn. now rewrite IH.
Qed.

Lemma forallb_ext {T} (f g : T -> bool) (l : list T) :
  (forall x, f x = g x) -> forallb f l = forallb g l.
Proof.
  intros H. induction l as [|x l IH]; [reflexivity|]. cbn. now rewrite H, IH.
Qed.

Lemma json_compliant_arr (l : list value) :
  json_compliant (VArr l) = forallb json_compliant l.
Proof.
  induction l as [|v l IH]; [reflexivity|].
  cbn [forallb]. rewrite <- IH. reflexivity.
Qed.

Lemma json_compliant_envelope limit offset (docs : list doc) :
  json_compliant (VDoc (envelope limit offset docs))
  = forallb (fun d => json_compliant (VDoc d)) docs.
Proof.
  unfold envelope, page_envelope.
  change (json_compliant (VDoc ?d)) with (json_compliant (VDoc d)).
  transitivity (json_compliant (VArr (map VDoc docs)) && true).
  - reflexivity.
  - rewrite andb_true_r, json_compliant_arr, forallb_map. reflexivity.
Qed.

Lemma json_compliant_product (p : StoredProduct) :
  json_compliant (VDoc (product_out p)) = is_finite (price (snd p)).
Proof.
  unfold product_out, details_out. cbn. now rewrite andb_true_r.
Qed.

Lemma json_compliant_order (g : Id * list Row) :
  json_compliant (VDoc (order_out g))
  = is_finite (dsum (map line_total (snd g)))
    && forallb (fun r => is_finite (price (snd (row_product r)))) (snd g).
Proof.
  unfold order_out.
  transitivity (json_compliant (VArr (map item_out (snd g)))
                && (is_finite (dsum (map line_total (snd g))) && true)).
  - reflexivity.
  - rewrite andb_true_r, andb_comm, json_compliant_arr, forallb_map.
    f_equal. apply forallb_ext. intros r. unfold item_out.
    transitivity (json_compliant (VDoc (details_out (row_product r))) && true).
    + reflexivity.
    + rewrite andb_true_r. apply (json_compliant_product (row_product r)).
Qed.

(** X1: a product that [create_product] has stored is answered with the
    string of its identifier and is the last entry of the unfiltered
    listing, with the posted name and price and under that identifier. *)
Theorem created_product_is_listed ps os o (p : Product) limit offset response :
  snd (create_product o p (store ps os)) = Ok response ->
  response = [("id", VStr (oid_str o))]
  /\ fst (create_product o p (store ps os)) = store (ps ++ [(IdOid o, p)]) os
  /\ (1 <= limit <= int64_max -> 0 <= offset <= int64_max ->
      list_products (fst (create_product o p (store ps os))) None None
                    limit offset
      = Ok (envelope limit offset
              (map product_out (window limit offset (ps ++ [(IdOid o, p)])))))
  /\ product_out (IdOid o, p)
     = [("name", VStr (name p)); ("price", VDouble (price p));
        ("id", VStr (oid_str o))].
Proof.
  intros Hok.
  destruct (create_product_cases ps os o p) as [[_ [e He]]|(Hf & Hs & _)];
    [congruence|].
  rewrite Hs in Hok. injection Hok as <-.
  split; [reflexivity|]. split; [exact Hf|]. split; [|reflexivity].
  intros Hl Ho. rewrite Hf, list_products_refines by assumption.
  rewrite filter_all; [reflexivity|]. intros q _. reflexivity.
Qed.

(** X2: posting a product never changes what [get_user_orders] answers,
    for any user and any window: the new product is stored under an
    ObjectId, which no [productId] string equals. *)
Theorem create_product_keeps_orders ps os o (p : Product) u limit offset :
  get_user_orders (fst (create_product o p (store ps os))) u limit offset
  = get_user_orders (store ps os) u limit offset.
Proof.
  destruct (create_product_cases ps os o p) as [[Hf _]|(Hf & _ & _)];
    rewrite Hf; [reflexivity|].
  apply get_user_orders_same_groups. unfold user_groups, joined_rows.
  pose proof (inner_join_snoc_oid ps o p (flatten (select_orders u os))) as E.
  unfold StoredProduct in *. now rewrite E.
Qed.

(** X3: posting an order for one user changes neither what
    [get_user_orders] answers to any other user nor what [list_products]
    answers. *)
Theorem create_order_keeps_other_reads
    ps os o (ord : Order) u name_q size_q limit offset :
  userId ord <> u ->
  get_user_orders (fst (create_order o ord (store ps os))) u limit offset
  = get_user_orders (store ps os) u limit offset
  /\ list_products (fst (create_order o ord (store ps os)))
                   name_q size_q limit offset
     = list_products (store ps os) name_q size_q limit offset.
Proof.
  intros Hu.
  destruct (create_order_cases ps os o ord) as [[Hf _]|(Hf & _ & _)];
    rewrite Hf; [split; reflexivity|].
  split; [|apply list_products_same_products].
  apply get_user_orders_same_groups. unfold user_groups.
  rewrite joined_rows_app.
  rewrite (@joined_rows_other_users _ ps [(IdOid o, ord)] u).
  - now rewrite app_nil_r.
  - intros x [<-|[]]. exact Hu.
Qed.

(** X4: when the stored orders have distinct identifiers, the entries of
    [data] are taken, by the page window, from a list that holds one entry
    per order of the user with at least one item that matches a product,
    in the order in which the engine emits the groups; an order has no
    entry exactly when none of its items matches.  A first page that has
    room for all orders of the user holds each of these entries once. *)
Theorem orders_listed_once_each ps os u limit offset :
  1 <= limit <= int64_max -> 0 <= offset <= int64_max ->
  NoDup (map fst os) ->
  exists groups,
    Permutation groups (flat_map (order_group ps) (select_orders u os))
    /\ get_user_orders (store ps os) u limit offset
       = Ok (envelope limit offset
               (map order_out (window limit offset groups)))
    /\ (offset = 0 -> len (select_orders u os) <= limit ->
        Permutation
          (map order_out (window limit offset groups))
          (map order_out (flat_map (order_group ps) (select_orders u os))))
    /\ (forall o, order_group ps o = []
                  \/ order_group ps o = [(fst o, rows_of ps o)])
    /\ (forall o, order_group ps o = []
                  <-> (forall it p, In it (items (snd o)) -> In p ps ->
                         fst p <> IdStr (productId it))).
Proof.
  intros Hl Ho Hnd. exists (user_groups ps os u).
  split; [|split; [|split; [|split]]].
  - now apply user_groups_orders.
  - now apply get_user_orders_refines.
  - intros -> Hroom. rewrite window_whole.
    + apply Permutation_map. now apply user_groups_orders.
    + pose proof (user_groups_count ps os u). lia.
  - intros o. unfold order_group. destruct (rows_of ps o); auto.
  - intros o. rewrite order_group_empty. apply rows_of_empty.
Qed.

(** X5: after [create_order] has stored an order, the groups of its user
    are the groups there were before together with the group of the new
    order, which exists when at least one of its items matches a product
    and carries the identifier the POST answered with; the engine orders
    them as it likes. *)
Theorem created_order_is_returned ps os o (ord : Order) limit offset response :
  1 <= limit <= int64_max -> 0 <= offset <= int64_max ->
  NoDup (map fst os) ->
  snd (create_order o ord (store ps os)) = Ok response ->
  exists before after,
    get_user_orders (store ps os) (userId ord) limit offset
    = Ok (envelope limit offset (map order_out (window limit offset before)))
    /\ get_user_orders (fst (create_order o ord (store ps os)))
                       (userId ord) limit offset
       = Ok (envelope limit offset (map order_out (window limit offset after)))
    /\ Permutation after (before ++ order_group ps (IdOid o, ord))
    /\ response = [("id", VStr (id_str (IdOid o)))]
    /\ (order_group ps (IdOid o, ord) = []
        \/ order_group ps (IdOid o, ord)
           = [(IdOid o, rows_of ps (IdOid o, ord))])
    /\ (order_group ps (IdOid o, ord) = []
        <-> (forall it p, In it (items ord) -> In p ps ->
               fst p <> IdStr (productId it))).
Proof.
  intros Hl Ho Hnd Hok.
  destruct (create_order_cases ps os o ord) as [[_ [e He]]|(Hf & Hs & Hfresh)];
    [congruence|].
  rewrite Hs in Hok. injection Hok as <-.
  exists (user_groups ps os (userId ord)),
         (user_groups ps (os ++ [(IdOid o, ord)]) (userId ord)).
  assert (Hnd' : NoDup (map fst (os ++ [(IdOid o, ord)]))).
  { rewrite map_app. apply NoDup_app; [exact Hnd | repeat constructor; auto |].
    intros i Hi [<-|[]]. apply in_map_iff in Hi.
    destruct Hi as (x & Hx & Hin). now apply (Hfresh x Hin). }
  split; [|split; [|split; [|split; [|split]]]].
  - now apply get_user_orders_refines.
  - rewrite Hf. now apply get_user_orders_refines.
  - eapply Permutation_trans; [now apply user_groups_orders|].
    unfold select_orders. rewrite filter_app. cbn [filter snd].
    rewrite String.eqb_refl, flat_map_app. cbn [flat_map].
    rewrite app_nil_r. apply Permutation_app_tail, Permutation_sym.
    now apply user_groups_orders.
  - reflexivity.
  - unfold order_group. destruct (rows_of ps (IdOid o, ord)); auto.
  - rewrite order_group_empty. apply (rows_of_empty ps (IdOid o, ord)).
Qed.

(** X6: in every store the two POST endpoints can build, whatever
    identifiers the driver generates, the documents of both collections
    follow the data model and carry pairwise distinct ObjectIds as
    identifiers: [insert_one] stores nothing under an identifier that is
    taken. *)
Theorem api_built_store_has_distinct_ids db :
  api_reachable db ->
  exists ps os,
    db = store ps os
    /\ NoDup (map fst ps) /\ NoDup (map fst os)
    /\ (forall p, In p ps -> exists o, fst p = IdOid o)
    /\ (forall x, In x os -> exists o, fst x = IdOid o).
Proof.
  induction 1 as [|db o p _ (ps & os & -> & Hps & Hos & Hp & Hx)
                  |db o ord _ (ps & os & -> & Hps & Hos & Hp & Hx)].
  - exists [], []. repeat split; try constructor; intros ? [].
  - destruct (create_product_cases ps os o p) as [[Hf _]|(Hf & _ & Hfresh)];
      rewrite Hf; [exists ps, os; auto|].
    exists (ps ++ [(IdOid o, p)]), os. repeat split; try assumption.
    + rewrite map_app. apply NoDup_app; [exact Hps | repeat constructor; auto |].
      intros i Hi [<-|[]]. apply in_map_iff in Hi.
      destruct Hi as (q & Hq & Hin). now apply (Hfresh q Hin).
    + intros q Hq. apply in_app_or in Hq. destruct Hq as [Hq|[<-|[]]].
      * now apply Hp.
      * now exists o.
  - destruct (create_order_cases ps os o ord) as [[Hf _]|(Hf & _ & Hfresh)];
      rewrite Hf; [exists ps, os; auto|].
    exists ps, (os ++ [(IdOid o, ord)]). repeat split; try assumption.
    + rewrite map_app. apply NoDup_app; [exact Hos | repeat constructor; auto |].
      intros i Hi [<-|[]]. apply in_map_iff in Hi.
      destruct Hi as (q & Hq & Hin). now apply (Hfresh q Hin).
    + intros q Hq. apply in_app_or in Hq. destruct Hq as [Hq|[<-|[]]].
      * now apply Hx.
      * now exists o.
Qed.

(** X7: [list_products] selects a product exactly when the case folding
    of its name contains the case folding of the [name] text and one of its
    sizes carries exactly the [size] label; a parameter that is absent or
    empty selects everything. *)
Theorem list_products_selection ps os name_q size_q limit offset :
  1 <= limit <= int64_max -> 0 <= offset <= int64_max ->
  exists sel : StoredProduct -> bool,
    (forall p, sel p = true
       <-> (forall n, name_q = Some n -> contains_caseless n (name (snd p)))
           /\ (forall sz, size_q = Some sz -> sz <> EmptyString ->
                 exists s, In s (sizes (snd p)) /\ size s = sz))
    /\ list_products (store ps os) name_q size_q limit offset
       = Ok (envelope limit offset
               (map product_out (window limit offset (filter sel ps)))).
Proof.
  intros Hl Ho. exists (listed name_q size_q). split.
  - intros p. unfold listed.
    now rewrite andb_true_iff, name_selected_spec, size_selected_spec.
  - now apply list_products_refines.
Qed.

(** X8: every entry [list_products] returns is a stored product reduced to
    its name, its price and [id], the string of its identifier: the [sizes]
    and [_id] fields are gone.  There are at most [limit] entries.  This
    holds of every response body, and there is one at every window the
    driver can encode. *)
Theorem listed_products_shape ps os name_q size_q limit offset :
  (1 <= limit <= int64_max -> 0 <= offset <= int64_max ->
   exists body, list_products (store ps os) name_q size_q limit offset = Ok body)
  /\ forall body,
       list_products (store ps os) name_q size_q limit offset = Ok body ->
       len (data_of body) <= limit
       /\ forall entry, In entry (data_of body) ->
            exists p, In p ps
              /\ entry = VDoc [("name", VStr (name (snd p)));
                               ("price", VDouble (price (snd p)));
                               ("id", VStr (id_str (fst p)))]
              /\ field "sizes" entry = None
              /\ field "_id" entry = None.
Proof.
  split.
  - intros Hl Ho. eexists. apply list_products_refines; assumption.
  - intros body Hbody.
    destruct (list_products_ok_window _ _ _ _ _ Hbody) as [Hl Ho].
    rewrite list_products_refines in Hbody by assumption.
    injection Hbody as <-. split.
    + rewrite data_of_envelope. unfold len, window.
      rewrite !length_map, length_firstn. lia.
    + intros entry Hin. rewrite data_of_envelope, map_map in Hin.
      apply in_map_iff in Hin. destruct Hin as (p & <- & Hp).
      apply In_window, filter_In in Hp. exists p. repeat split. tauto.
Qed.

(** X9: the pages of [list_products] tile.  While the counts stay within
    what the driver can encode, the page at [offset] followed by the page
    at the [next] it announces is the page of twice the size at [offset]:
    nothing is repeated and nothing is left out. *)
Theorem product_pages_tile ps os name_q size_q limit offset :
  1 <= limit -> 0 <= offset ->
  2 * limit <= int64_max -> offset + limit <= int64_max ->
  exists first second both,
    list_products (store ps os) name_q size_q limit offset = Ok first
    /\ page_of first "next" = Some (VInt (offset + limit))
    /\ list_products (store ps os) name_q size_q limit (offset + limit)
       = Ok second
    /\ list_products (store ps os) name_q size_q (2 * limit) offset
       = Ok both
    /\ data_of both = data_of first ++ data_of second.
Proof.
  intros Hl Ho Hl2 Hnext. do 3 eexists.
  split; [apply list_products_refines; lia|].
  split; [reflexivity|].
  split; [apply list_products_refines; lia|].
  split; [apply list_products_refines; lia|].
  rewrite !data_of_envelope, <- map_app, <- map_app.
  rewrite window_tile by lia. reflexivity.
Qed.

(** X10: within the counts the driver can encode, a page that starts at or
    after the number of the user's orders (of the stored products, for
    [list_products]) is a successful response with an empty [data] array. *)
Theorem page_past_the_end ps os u name_q size_q limit offset :
  1 <= limit <= int64_max -> 0 <= offset <= int64_max ->
  (len (select_orders u os) <= offset ->
   get_user_orders (store ps os) u limit offset = Ok (envelope limit offset []))
  /\ (len ps <= offset ->
      list_products (store ps os) name_q size_q limit offset
      = Ok (envelope limit offset [])).
Proof.
  intros Hl Ho. split; intros Hlen.
  - rewrite get_user_orders_refines by assumption.
    rewrite window_past_end; [reflexivity|].
    pose proof (user_groups_count ps os u). lia.
  - rewrite list_products_refines by assumption.
    rewrite window_past_end; [reflexivity|].
    pose proof (filter_length_le (listed name_q size_q) ps).
    unfold len in *. lia.
Qed.

(** X11: how a read ends on a store that follows the data model.  The
    handler raises a validation error exactly when [limit] is below 1 or
    [offset] below 0, and the driver's OverflowError exactly when the window
    is valid and one of the two exceeds [int64_max]; otherwise it returns a
    body, and rendering that body raises ValueError exactly when one of the
    returned prices or totals is an infinity or a NaN. *)
Theorem read_outcomes ps os u name_q size_q limit offset :
  (forall e,
     get_user_orders (store ps os) u limit offset = Raise e
     <-> (e = RequestValidationError /\ (limit < 1 \/ offset < 0))
         \/ (e = OverflowError /\ 1 <= limit /\ 0 <= offset
             /\ (int64_max < limit \/ int64_max < offset)))
  /\ (forall e,
        list_products (store ps os) name_q size_q limit offset = Raise e
        <-> (e = RequestValidationError /\ (limit < 1 \/ offset < 0))
            \/ (e = OverflowError /\ 1 <= limit /\ 0 <= offset
                /\ (int64_max < limit \/ int64_max < offset)))
  /\ (forall body,
        get_user_orders (store ps os) u limit offset = Ok body ->
        render body
        = if forallb
               (fun g =>
                  is_finite (dsum (map line_total (snd g)))
                  && forallb (fun r => is_finite (price (snd (row_product r))))
                             (snd g))
               (window limit offset (user_groups ps os u))
          then Ok body else Raise ValueError)
  /\ (forall body,
        list_products (store ps os) name_q size_q limit offset = Ok body ->
        render body
        = if forallb (fun p => is_finite (price (snd p)))
                     (window limit offset (filter (listed name_q size_q) ps))
          then Ok body else Raise ValueError).
Proof.
  split; [|split; [|split]].
  - intros e.
    destruct (window_cases limit offset) as [Hbad|[(Hl & Ho & Hbig)|[Hl Ho]]].
    + rewrite get_user_orders_invalid by assumption. split.
      * intros E. injection E as <-. left. now split.
      * intros [[-> _]|(_ & Hl & Ho & _)]; [reflexivity | lia].
    + rewrite get_user_orders_overflow by assumption. split.
      * intros E. injection E as <-. right. auto.
      * intros [[_ Hbad]|[-> _]]; [lia | reflexivity].
    + rewrite get_user_orders_refines by assumption. split.
      * discriminate.
      * intros [[_ Hbad]|(_ & _ & _ & Hbig)]; lia.
  - intros e.
    destruct (window_cases limit offset) as [Hbad|[(Hl & Ho & Hbig)|[Hl Ho]]].
    + rewrite list_products_invalid by assumption. split.
      * intros E. injection E as <-. left. now split.
      * intros [[-> _]|(_ & Hl & Ho & _)]; [reflexivity | lia].
    + rewrite list_products_overflow by assumption. split.
      * intros E. injection E as <-. right. auto.
      * intros [[_ Hbad]|[-> _]]; [lia | reflexivity].
    + rewrite list_products_refines by assumption. split.
      * discriminate.
      * intros [[_ Hbad]|(_ & _ & _ & Hbig)]; lia.
  - intros body Hbody.
    destruct (get_user_orders_ok_window _ _ _ _ Hbody) as [Hl Ho].
    rewrite get_user_orders_refines in Hbody by assumption.
    injection Hbody as <-. unfold render.
    rewrite json_compliant_envelope, forallb_map.
    rewrite (forallb_ext _ _ _ json_compliant_order). reflexivity.
  - intros body Hbody.
    destruct (list_products_ok_window _ _ _ _ _ Hbody) as [Hl Ho].
    rewrite list_products_refines in Hbody by assumption.
    injection Hbody as <-. unfold render.
    rewrite json_compliant_envelope, forallb_map.
    rewrite (forallb_ext _ _ _ json_compliant_product). reflexivity.
Qed.

(** X12: [get_user_orders] returns nothing of another user's orders.  Every
    returned order carries the identifier of a stored order whose [userId]
    is exactly the requested one, and every returned item has the
    [productId] and [qty] of an item of such an order.  This holds of every
    response body, and there is one at every window the driver can
    encode. *)
Theorem returned_orders_belong_to_user ps os u limit offset :
  (1 <= limit <= int64_max -> 0 <= offset <= int64_max ->
   exists body, get_user_orders (store ps os) u limit offset = Ok body)
  /\ forall body,
       get_user_orders (store ps os) u limit offset = Ok body ->
       forall order item,
         In order (data_of body) -> In item (items_of order) ->
         exists o it,
           In o os /\ userId (snd o) = u
           /\ field "id" order = Some (VStr (id_str (fst o)))
           /\ In it (items (snd o))
           /\ field "productId" item = Some (VStr (productId it))
           /\ field "qty" item = Some (VInt (qty it)).
Proof.
  split.
  - intros Hl Ho. eexists. apply get_user_orders_refines; assumption.
  - intros body Hbody order item Horder Hitem.
    destruct (get_user_orders_ok_window _ _ _ _ Hbody) as [Hl Ho].
    rewrite get_user_orders_refines in Hbody by assumption.
    injection Hbody as <-.
    rewrite data_of_envelope, map_map in Horder.
    apply in_map_iff in Horder. destruct Horder as (g & <- & Hg).
    apply In_window in Hg. unfold items_of in Hitem. cbn in Hitem.
    apply in_map_iff in Hitem. destruct Hitem as (r & <- & Hr).
    destruct (group_rows_member _ _ _ Hg Hr) as [Hrow Hkey].
    apply inner_join_matched in Hrow. destruct Hrow as (_ & _ & Hflat).
    apply In_flatten in Hflat. destruct Hflat as (o & Ho' & Hh & Hit).
    apply filter_In in Ho'. destruct Ho' as [Hin Hu].
    apply String.eqb_eq in Hu. exists o, (row_item r).
    repeat split; try assumption.
    cbn. rewrite <- Hkey. unfold row_key. now rewrite <- Hh.
Qed.


(** X13: what the inner loop of [get_user_orders] leaves of an item whose
    [productDetails] is a dict.  When it succeeds, the details have lost
    [sizes] and [_id], have gained [id], the string of the former [_id],
    and are otherwise unchanged, and so is the rest of the item. *)
Theorem shape_item_strips_details (it details : doc) item' :
  dict_get "productDetails" it = Some (VDoc details) ->
  NoDup (map fst details) ->
  shape_item (VDoc it) = Ok item' ->
  exists details' i s,
    field "productDetails" item' = Some (VDoc details')
    /\ dict_get "_id" details = Some i /\ py_str i = Ok s
    /\ dict_get "id" details' = Some (VStr s)
    /\ dict_get "sizes" details' = None
    /\ dict_get "_id" details' = None
    /\ (forall k, k <> "_id" -> k <> "id" -> k <> "sizes" ->
          dict_get k details' = dict_get k details)
    /\ (forall k, k <> "productDetails" -> field k item' = dict_get k it).
Proof.
  intros Hpd Hnd. unfold shape_item, dict_item. rewrite Hpd. cbn [bind].
  unfold rename_id, dict_pop.
  destruct (dict_get "_id" details) as [i|] eqn:Hid; [|discriminate].
  cbn [bind]. destruct (py_str i) as [s|] eqn:Hs; [|discriminate].
  cbn [bind]. unfold dict_del.
  destruct (dict_get "sizes" (dict_set "id" (VStr s) (dict_remove "_id" details)))
    eqn:Hsz; [|discriminate].
  cbn [bind]. intros E. injection E as <-.
  exists (dict_remove "sizes" (dict_set "id" (VStr s) (dict_remove "_id" details))),
         i, s.
  split; [|split; [first [reflexivity | assumption]
          |split; [first [reflexivity | assumption]
          |split; [|split; [|split; [|split]]]]]].
  - cbn [field]. apply dict_get_set_same.
  - rewrite dict_get_remove_other by discriminate. apply dict_get_set_same.
  - apply dict_get_remove_same, NoDup_dict_set, NoDup_dict_remove, Hnd.
  - rewrite dict_get_remove_other, dict_get_set_other by discriminate.
    now apply dict_get_remove_same.
  - intros k H1 H2 H3.
    rewrite dict_get_remove_other, dict_get_set_other, dict_get_remove_other;
      congruence.
  - intros k Hk. cbn [field]. apply dict_get_set_other. congruence.
Qed.

(** X14: a joined product document without a [sizes] field makes the inner
    loop of [get_user_orders] raise [KeyError('sizes')], whatever else the
    item holds. *)
Theorem shape_item_needs_sizes (it details : doc) i s :
  dict_get "productDetails" it = Some (VDoc details) ->
  dict_get "_id" details = Some i ->
  py_str i = Ok s ->
  dict_get "sizes" details = None ->
  shape_item (VDoc it) = Raise (KeyError "sizes").
Proof.
  intros Hpd Hid Hs Hsz. unfold shape_item, dict_item. rewrite Hpd. cbn [bind].
  unfold rename_id, dict_pop. rewrite Hid. cbn [bind]. rewrite Hs. cbn [bind].
  unfold dict_del.
  rewrite dict_get_set_other, dict_get_remove_other, Hsz by discriminate.
  reflexivity.
Qed.


(** X15: the identifier a POST answers with is the 24-character string of
    the generated ObjectId, the one [str_object_id] computes, and two POSTs
    answer with the same identifier only for the same ObjectId.
    [str_object_id] raises [TypeError] on anything but an ObjectId. *)
Theorem returned_ids_identify
    (db db' : database) o o' (p p' : Product) (ord ord' : Order) :
  oid_in_range o -> oid_in_range o' ->
  (forall r r',
     snd (create_product o p db) = Ok r ->
     snd (create_product o' p' db') = Ok r' ->
     (r = r' <-> o = o'))
  /\ (forall r r',
        snd (create_order o ord db) = Ok r ->
        snd (create_order o' ord' db') = Ok r' ->
        (r = r' <-> o = o'))
  /\ (exists s,
        (forall r, snd (create_product o p db) = Ok r -> r = [("id", VStr s)])
        /\ (forall r, snd (create_order o ord db) = Ok r -> r = [("id", VStr s)])
        /\ str_object_id (VOid o) = Ok s
        /\ String.length s = 24%nat)
  /\ (forall v, (forall x, v <> VOid x) -> str_object_id v = Raise TypeError).
Proof.
  intros Hr Hr'.
  assert (Hp : forall (d : database) i (q : Product) r,
             snd (create_product i q d) = Ok r -> r = [("id", VStr (oid_str i))]).
  { intros d i q r. unfold create_product. cbn [snd].
    destruct (insert_one_cases i (Product_dict q) (products_collection d))
      as [[_ [e He]]|(_ & Hs & _)]; rewrite ?He, ?Hs; cbn [bind];
      [discriminate | congruence]. }
  assert (Hq : forall (d : database) i (x : Order) r,
             snd (create_order i x d) = Ok r -> r = [("id", VStr (oid_str i))]).
  { intros d i x r. unfold create_order. cbn [snd].
    destruct (insert_one_cases i (Order_dict x) (orders_collection d))
      as [[_ [e He]]|(_ & Hs & _)]; rewrite ?He, ?Hs; cbn [bind];
      [discriminate | congruence]. }
  split; [|split; [|split]].
  - intros r r' H H'. apply Hp in H. apply Hp in H'. subst. split.
    + intros E. injection E as E. now apply oid_str_inj.
    + now intros ->.
  - intros r r' H H'. apply Hq in H. apply Hq in H'. subst. split.
    + intros E. injection E as E. now apply oid_str_inj.
    + now intros ->.
  - exists (oid_str o). split; [apply Hp|]. split; [apply Hq|].
    split; [reflexivity|]. destruct o as [n]. apply hex_digits_length.
  - intros v Hv. destruct v; try reflexivity. now destruct (Hv o0).
Qed.

(** X17: how a POST ends.  [create_order] stores nothing and ends in the
    driver's OverflowError when a quantity is outside eight bytes, and in
    the store's DuplicateKeyError when the generated identifier is taken;
    otherwise it appends the order under that identifier and answers with
    its string.  [create_product] does the same, the quantities being those
    of the sizes. *)
Theorem write_outcomes (db : database) o (p : Product) (ord : Order) :
  let order_fits := forallb (fun it => fits_int64 (qty it)) (items ord) in
  let product_fits := forallb (fun s => fits_int64 (quantity s)) (sizes p) in
  create_order o ord db
  = (if order_fits && negb (has_id (VOid o) (orders_collection db))
     then {| products_collection := products_collection db;
             orders_collection :=
               orders_collection db ++ [("_id", VOid o) :: Order_dict ord] |}
     else db,
     if negb order_fits then Raise OverflowError
     else if has_id (VOid o) (orders_collection db) then Raise DuplicateKeyError
     else Ok [("id", VStr (oid_str o))])
  /\ create_product o p db
     = (if product_fits && negb (has_id (VOid o) (products_collection db))
        then {| products_collection :=
                  products_collection db ++ [("_id", VOid o) :: Product_dict p];
                orders_collection := orders_collection db |}
        else db,
        if negb product_fits then Raise OverflowError
        else if has_id (VOid o) (products_collection db)
             then Raise DuplicateKeyError
             else Ok [("id", VStr (oid_str o))]).
Proof.
  intros order_fits product_fits.
  assert (Hord : encodable (VDoc (("_id", VOid o) :: Order_dict ord))
                 = order_fits).
  { unfold Order_dict, order_fits.
    transitivity (encodable (VArr (map (fun i => VDoc (OrderItem_dict i))
                                       (items ord))) && true).
    - reflexivity.
    - rewrite andb_true_r. induction (items ord) as [|it its IH].
      + reflexivity.
      + cbn [map forallb]. rewrite <- IH. unfold OrderItem_dict.
        cbn. now rewrite andb_true_r. }
  assert (Hprod : encodable (VDoc (("_id", VOid o) :: Product_dict p))
                  = product_fits).
  { unfold Product_dict, product_fits.
    transitivity (encodable (VArr (map (fun s => VDoc (Size_dict s))
                                       (sizes p))) && true).
    - reflexivity.
    - rewrite andb_true_r. induction (sizes p) as [|s ss IH].
      + reflexivity.
      + cbn [map forallb]. rewrite <- IH. unfold Size_dict.
        cbn. now rewrite andb_true_r. }
  split.
  - unfold create_order, insert_one. rewrite Hord. destruct db as [pc oc].
    cbn [products_collection orders_collection].
    destruct order_fits; cbn [negb andb fst snd bind]; [|reflexivity].
    destruct (has_id (VOid o) oc); reflexivity.
  - unfold create_product, insert_one. rewrite Hprod. destruct db as [pc oc].
    cbn [products_collection orders_collection].
    destruct product_fits; cbn [negb andb fst snd bind]; [|reflexivity].
    destruct (has_id (VOid o) pc); reflexivity.
Qed.

End MoreProperties.


(* ------------------------------------------------------------------ *)
(** ** The further properties at the small store *)

Section MoreScenarios.
#[local] Existing Instance binary64.
Import Scenario MoreScenario.
#[local] Existing Instance plain_engine.

Ltac valid_window := unfold default_limit, default_offset, int64_max; lia.

(** *** Evaluations of the writes *)

Example order_with_huge_quantity :
  create_order (Oid 9) huge_order (store [shirt] [order1])
  = (store [shirt] [order1], Raise OverflowError).
Proof. reflexivity. Qed.

Example identifier_taken :
  create_order (Oid 1) new_order (store [shirt] [order1])
  = (store [shirt] [order1], Raise DuplicateKeyError).
Proof. reflexivity. Qed.

Example order_stored :
  create_order (Oid 9) new_order (store [shirt] [order1])
  = (store [shirt] [order1; (IdOid (Oid 9), new_order)],
     Ok [("id", VStr "000000000000000000000009")]).
Proof. reflexivity. Qed.

(** A listing with an infinite price is returned by the handler and
    cannot be rendered. *)
Example infinite_price_is_not_rendered :
  list_products (store [shirt; gold] []) None None 10 0
  = Ok (envelope 10 0 [product_out shirt; product_out gold])
  /\ render (envelope 10 0 [product_out shirt; product_out gold])
     = Raise ValueError
  /\ render (envelope 10 0 [product_out shirt])
     = Ok (envelope 10 0 [product_out shirt]).
Proof. repeat split; reflexivity. Qed.

(** *** The theorems at the small store *)

Lemma created_product_is_listed_witness :
  snd (create_product (Oid 9) (snd pants) (store [shirt] [order1]))
  = Ok [("id", VStr (oid_str (Oid 9)))]
  /\ 1 <= default_limit <= int64_max /\ 0 <= default_offset <= int64_max
  /\ fst (create_product (Oid 9) (snd pants) (store [shirt] [order1]))
     = store ([shirt] ++ [(IdOid (Oid 9), snd pants)]) [order1]
  /\ list_products (fst (create_product (Oid 9) (snd pants) (store [shirt] [order1])))
                   None None default_limit default_offset
     = Ok (envelope default_limit default_offset
             (map product_out
                  (window default_limit default_offset
                          ([shirt] ++ [(IdOid (Oid 9), snd pants)]))))
  /\ product_out (IdOid (Oid 9), snd pants)
     = [("name", VStr (name (snd pants))); ("price", VDouble (price (snd pants)));
        ("id", VStr (oid_str (Oid 9)))].
Proof.
  split; [reflexivity|]. split; [valid_window|]. split; [valid_window|].
  destruct (@created_product_is_listed binary64 plain_engine [shirt] [order1]
              (Oid 9) (snd pants) default_limit default_offset
              [("id", VStr (oid_str (Oid 9)))] eq_refl)
    as (_ & Hstore & Hlist & Hout).
  split; [exact Hstore|]. split; [apply Hlist; valid_window | exact Hout].
Defined.

Lemma posted_order_is_not_u2 : userId posted_order <> "u2".
Proof. discriminate. Defined.

Lemma create_order_keeps_other_reads_witness :
  userId posted_order <> "u2"
  /\ get_user_orders
       (fst (create_order (Oid 9) posted_order (store [shirt] [order1; order2])))
       "u2" default_limit default_offset
     = get_user_orders (store [shirt] [order1; order2]) "u2"
                       default_limit default_offset
  /\ list_products
       (fst (create_order (Oid 9) posted_order (store [shirt] [order1; order2])))
       (Some "shirt") None default_limit default_offset
     = list_products (store [shirt] [order1; order2]) (Some "shirt") None
                     default_limit default_offset.
Proof.
  split; [exact posted_order_is_not_u2|].
  apply (@create_order_keeps_other_reads binary64 plain_engine [shirt]
           [order1; order2] (Oid 9) posted_order "u2" (Some "shirt") None
           default_limit default_offset posted_order_is_not_u2).
Defined.

Lemma three_orders_distinct : NoDup (map fst [order1; order2; mixed_order]).
Proof.
  repeat constructor; cbn; intuition discriminate.
Defined.

Lemma orders_listed_once_each_witness :
  1 <= default_limit <= int64_max /\ 0 <= default_offset <= int64_max
  /\ NoDup (map fst [order1; order2; mixed_order])
  /\ exists groups,
       Permutation groups
         (flat_map (order_group [shirt; pants])
                   (select_orders "u1" [order1; order2; mixed_order]))
       /\ get_user_orders (store [shirt; pants] [order1; order2; mixed_order])
                          "u1" default_limit default_offset
          = Ok (envelope default_limit default_offset
                  (map order_out
                       (window default_limit default_offset groups)))
       /\ (default_offset = 0 ->
           len (select_orders "u1" [order1; order2; mixed_order])
           <= default_limit ->
           Permutation
             (map order_out (window default_limit default_offset groups))
             (map order_out
                  (flat_map (order_group [shirt; pants])
                            (select_orders "u1" [order1; order2; mixed_order]))))
       /\ (forall o, order_group [shirt; pants] o = []
                     \/ order_group [shirt; pants] o
                        = [(fst o, rows_of [shirt; pants] o)])
       /\ (forall o, order_group [shirt; pants] o = []
                     <-> (forall it p, In it (items (snd o)) ->
                            In p [shirt; pants] ->
                            fst p <> IdStr (productId it))).
Proof.
  split; [valid_window|]. split; [valid_window|].
  split; [exact three_orders_distinct|].
  apply (@orders_listed_once_each binary64 plain_engine [shirt; pants]
           [order1; order2; mixed_order] "u1" default_limit default_offset);
    [valid_window | valid_window | exact three_orders_distinct].
Defined.

Lemma two_orders_distinct : NoDup (map fst [order1; order2]).
Proof.
  repeat constructor; cbn; intuition discriminate.
Defined.

Lemma created_order_is_returned_witness :
  1 <= default_limit <= int64_max /\ 0 <= default_offset <= int64_max
  /\ NoDup (map fst [order1; order2])
  /\ snd (create_order (Oid 9) new_order (store [shirt] [order1; order2]))
     = Ok [("id", VStr (oid_str (Oid 9)))]
  /\ exists before after,
       get_user_orders (store [shirt] [order1; order2]) (userId new_order)
                       default_limit default_offset
       = Ok (envelope default_limit default_offset
               (map order_out (window default_limit default_offset before)))
       /\ get_user_orders
            (fst (create_order (Oid 9) new_order (store [shirt] [order1; order2])))
            (userId new_order) default_limit default_offset
          = Ok (envelope default_limit default_offset
                  (map order_out (window default_limit default_offset after)))
       /\ Permutation after
            (before ++ order_group [shirt] (IdOid (Oid 9), new_order))
       /\ [("id", VStr (oid_str (Oid 9)))]
          = [("id", VStr (id_str (IdOid (Oid 9))))]
       /\ (order_group [shirt] (IdOid (Oid 9), new_order) = []
           \/ order_group [shirt] (IdOid (Oid 9), new_order)
              = [(IdOid (Oid 9), rows_of [shirt] (IdOid (Oid 9), new_order))])
       /\ (order_group [shirt] (IdOid (Oid 9), new_order) = []
           <-> (forall it p, In it (items new_order) -> In p [shirt] ->
                  fst p <> IdStr (productId it))).
Proof.
  split; [valid_window|]. split; [valid_window|].
  split; [exact two_orders_distinct|]. split; [reflexivity|].
  apply (@created_order_is_returned binary64 plain_engine [shirt]
           [order1; order2] (Oid 9) new_order default_limit default_offset
           [("id", VStr (oid_str (Oid 9)))]);
    [valid_window | valid_window | exact two_orders_distinct | reflexivity].
Defined.

Lemma api_built_store_has_distinct_ids_witness :
  api_reachable posted_db
  /\ exists ps os,
       posted_db = store ps os
       /\ NoDup (map fst ps) /\ NoDup (map fst os)
       /\ (forall p, In p ps -> exists o, fst p = IdOid o)
       /\ (forall x, In x os -> exists o, fst x = IdOid o).
Proof.
  split; [exact posted_db_reachable|].
  apply (@api_built_store_has_distinct_ids binary64 posted_db posted_db_reachable).
Defined.

Lemma list_products_selection_witness :
  1 <= default_limit <= int64_max /\ 0 <= default_offset <= int64_max
  /\ exists sel : StoredProduct -> bool,
       (forall p, sel p = true
          <-> (forall n, Some "shirt" = Some n ->
                 contains_caseless n (name (snd p)))
              /\ (forall sz, Some "M" = Some sz -> sz <> EmptyString ->
                    exists s, In s (sizes (snd p)) /\ size s = sz))
       /\ list_products (store [shirt; pants] [order1]) (Some "shirt") (Some "M")
                        default_limit default_offset
          = Ok (envelope default_limit default_offset
                  (map product_out
                       (window default_limit default_offset
                               (filter sel [shirt; pants])))).
Proof.
  split; [valid_window|]. split; [valid_window|].
  apply (@list_products_selection binary64 plain_engine [shirt; pants] [order1]
           (Some "shirt") (Some "M") default_limit default_offset); valid_window.
Defined.

Lemma listed_products_shape_witness :
  1 <= default_limit <= int64_max /\ 0 <= default_offset <= int64_max
  /\ exists body,
       list_products (store [shirt; pants] [order1]) None (Some "M")
                     default_limit default_offset = Ok body
       /\ len (data_of body) <= default_limit
       /\ forall entry, In entry (data_of body) ->
            exists p, In p [shirt; pants]
              /\ entry = VDoc [("name", VStr (name (snd p)));
                               ("price", VDouble (price (snd p)));
                               ("id", VStr (id_str (fst p)))]
              /\ field "sizes" entry = None
              /\ field "_id" entry = None.
Proof.
  split; [valid_window|]. split; [valid_window|].
  destruct (@listed_products_shape binary64 plain_engine [shirt; pants]
              [order1] None (Some "M") default_limit default_offset)
    as [Hbody Hshape].
  destruct Hbody as [body Hbody]; [valid_window | valid_window |].
  exists body. split; [exact Hbody | exact (Hshape body Hbody)].
Defined.

Lemma product_pages_tile_witness :
  1 <= 1 /\ 0 <= 0 /\ 2 * 1 <= int64_max /\ 0 + 1 <= int64_max
  /\ exists first second both,
       list_products (store [shirt; pants; creme] [order1]) None None 1 0
       = Ok first
       /\ page_of first "next" = Some (VInt (0 + 1))
       /\ list_products (store [shirt; pants; creme] [order1]) None None 1 (0 + 1)
          = Ok second
       /\ list_products (store [shirt; pants; creme] [order1]) None None (2 * 1) 0
          = Ok both
       /\ data_of both = data_of first ++ data_of second.
Proof.
  split; [lia|]. split; [lia|]. split; [valid_window|]. split; [valid_window|].
  apply (@product_pages_tile binary64 plain_engine [shirt; pants; creme]
           [order1] None None 1 0); valid_window.
Defined.

Lemma page_past_the_end_witness :
  1 <= 5 <= int64_max /\ 0 <= 2 <= int64_max
  /\ len (select_orders "u1" [order1; order2; mixed_order]) <= 2
  /\ len [shirt; pants] <= 2
  /\ get_user_orders (store [shirt; pants] [order1; order2; mixed_order]) "u1" 5 2
     = Ok (envelope 5 2 [])
  /\ list_products (store [shirt; pants] [order1; order2; mixed_order])
                   None None 5 2
     = Ok (envelope 5 2 []).
Proof.
  split; [valid_window|]. split; [valid_window|].
  assert (H1 : len (select_orders "u1" [order1; order2; mixed_order]) <= 2)
    by (vm_compute; discriminate).
  assert (H2 : len [shirt; pants] <= 2) by (vm_compute; discriminate).
  split; [exact H1|]. split; [exact H2|].
  destruct (@page_past_the_end binary64 plain_engine [shirt; pants]
              [order1; order2; mixed_order] "u1" None None 5 2) as [Ha Hb];
    [valid_window | valid_window |].
  split; [exact (Ha H1) | exact (Hb H2)].
Defined.

(** The listing with the infinite price: the handler returns it, the
    rendering raises ValueError; a limit of [2 ^ 63] ends the handler in
    OverflowError and in nothing else. *)
Lemma read_outcomes_witness :
  (exists body,
     list_products (store [shirt; gold] [order1]) None None 10 0 = Ok body
     /\ render body = Raise ValueError)
  /\ (forall e,
        get_user_orders (store [shirt; gold] [order1]) "u1" (2 ^ 63) 0 = Raise e
        <-> e = RequestValidationError /\ (2 ^ 63 < 1 \/ 0 < 0)
            \/ e = OverflowError /\ 1 <= 2 ^ 63 /\ 0 <= 0
               /\ (int64_max < 2 ^ 63 \/ int64_max < 0)).
Proof.
  split.
  - exists (envelope 10 0 [product_out shirt; product_out gold]).
    split; [reflexivity|].
    exact (proj2 (proj2 (proj2
             (@read_outcomes binary64 plain_engine [shirt; gold] [order1]
                "u1" None None 10 0))) _ eq_refl).
  - exact (proj1 (@read_outcomes binary64 plain_engine [shirt; gold] [order1]
                    "u1" None None (2 ^ 63) 0)).
Defined.

Lemma returned_orders_belong_to_user_witness :
  1 <= default_limit <= int64_max /\ 0 <= default_offset <= int64_max
  /\ exists body,
       get_user_orders (store [shirt; pants] [order1; order2; mixed_order]) "u1"
                       default_limit default_offset = Ok body
       /\ forall order item,
            In order (data_of body) -> In item (items_of order) ->
            exists o it,
              In o [order1; order2; mixed_order] /\ userId (snd o) = "u1"
              /\ field "id" order = Some (VStr (id_str (fst o)))
              /\ In it (items (snd o))
              /\ field "productId" item = Some (VStr (productId it))
              /\ field "qty" item = Some (VInt (qty it)).
Proof.
  split; [valid_window|]. split; [valid_window|].
  destruct (@returned_orders_belong_to_user binary64 plain_engine
              [shirt; pants] [order1; order2; mixed_order] "u1"
              default_limit default_offset) as [Hbody Hmine].
  destruct Hbody as [body Hbody]; [valid_window | valid_window |].
  exists body. split; [exact Hbody | exact (Hmine body Hbody)].
Defined.

Lemma shirt_keys_distinct : NoDup (map fst (stored_product shirt)).
Proof.
  repeat constructor; cbn; intuition discriminate.
Defined.

Lemma shape_item_strips_details_witness :
  dict_get "productDetails" joined_item = Some (VDoc (stored_product shirt))
  /\ NoDup (map fst (stored_product shirt))
  /\ shape_item (VDoc joined_item) = Ok shaped_item
  /\ exists details' i s,
       field "productDetails" shaped_item = Some (VDoc details')
       /\ dict_get "_id" (stored_product shirt) = Some i /\ py_str i = Ok s
       /\ dict_get "id" details' = Some (VStr s)
       /\ dict_get "sizes" details' = None
       /\ dict_get "_id" details' = None
       /\ (forall k, k <> "_id" -> k <> "id" -> k <> "sizes" ->
             dict_get k details' = dict_get k (stored_product shirt))
       /\ (forall k, k <> "productDetails" ->
             field k shaped_item = dict_get k joined_item).
Proof.
  split; [reflexivity|]. split; [exact shirt_keys_distinct|].
  split; [reflexivity|].
  apply (@shape_item_strips_details binary64 joined_item (stored_product shirt)
           shaped_item eq_refl shirt_keys_distinct eq_refl).
Defined.

Lemma shape_item_needs_sizes_witness :
  dict_get "productDetails" bare_item = Some (VDoc bare_details)
  /\ dict_get "_id" bare_details = Some (VStr "p7")
  /\ py_str (VStr "p7") = Ok "p7"
  /\ dict_get "sizes" bare_details = None
  /\ shape_item (VDoc bare_item) = Raise (KeyError "sizes").
Proof.
  repeat (split; [reflexivity|]).
  apply (@shape_item_needs_sizes binary64 bare_item bare_details (VStr "p7") "p7"
           eq_refl eq_refl eq_refl eq_refl).
Defined.

Lemma returned_ids_identify_witness :
  oid_in_range (Oid 1) /\ oid_in_range (Oid 2)
  /\ snd (create_product (Oid 1) (snd shirt) empty_db)
     = Ok [("id", VStr "000000000000000000000001")]
  /\ snd (create_product (Oid 2) (snd pants) posted_db)
     = Ok [("id", VStr "000000000000000000000002")]
  /\ ([("id", VStr "000000000000000000000001")]
      = [("id", @VStr binary64 "000000000000000000000002")]
      <-> Oid 1 = Oid 2)
  /\ (exists s,
        (forall r, snd (create_product (Oid 1) (snd shirt) empty_db) = Ok r ->
                   r = [("id", VStr s)])
        /\ (forall r, snd (create_order (Oid 1) posted_order empty_db) = Ok r ->
                      r = [("id", VStr s)])
        /\ str_object_id (VOid (Oid 1)) = Ok s
        /\ String.length s = 24%nat)
  /\ (forall v, (forall x, v <> VOid x) -> str_object_id v = Raise TypeError).
Proof.
  split; [reflexivity|]. split; [reflexivity|].
  split; [reflexivity|]. split; [reflexivity|].
  destruct (@returned_ids_identify binary64 empty_db posted_db (Oid 1) (Oid 2)
              (snd shirt) (snd pants) posted_order new_order eq_refl eq_refl)
    as (Hproducts & _ & Hstring & Helse).
  split; [exact (Hproducts _ _ eq_refl eq_refl)|].
  split; [exact Hstring | exact Helse].
Defined.

(** The order with the quantity [2 ^ 63] is not stored; the shirt, posted
    under an identifier that is free, is. *)
Lemma write_outcomes_witness :
  create_order (Oid 9) huge_order (store [pants] [order1])
  = (store [pants] [order1], Raise OverflowError)
  /\ create_product (Oid 9) (snd shirt) (store [pants] [order1])
     = (store [pants; (IdOid (Oid 9), snd shirt)] [order1],
        Ok [("id", VStr (oid_str (Oid 9)))]).
Proof.
  exact (@write_outcomes binary64 (store [pants] [order1]) (Oid 9) (snd shirt)
           huge_order).
Defined.

End MoreScenarios.
